(** * Vietnam POI: the search and translation handlers of [src/App.jsx]

    A shallow embedding of the pure helpers ([haversineDistance],
    [buildPoiLabel], [buildCategory], [describeWeatherCode],
    [normalizeBaseUrl]) and of the two asynchronous handlers
    ([handleSearch], [handleTranslate]) of the [App] component.

    Modelling conventions.
    - A JavaScript string is a [string] holding its UTF-8 bytes.
    - A JavaScript number is [NaN], an infinity or a finite number; a
      finite number is kept as the real it denotes, the two zeros are one,
      and arithmetic on finite numbers is exact: the rounding of binary64
      is not modelled.  Statements about distances therefore take what
      depends on rounding as a hypothesis.
    - An [async] handler is a computation that emits the calls it makes to
      the React state setters and to [fetch], in program order, and either
      returns or throws.  The answers of the network are an argument. *)

From Stdlib Require Import String Ascii List ZArith Bool Reals Lra Lia.
From Stdlib Require Import Sorted Permutation DecimalString.
Import ListNotations.

Local Open Scope string_scope.
Local Open Scope list_scope.

(** ** Strings *)

Module Str.

Definition bytes (codes : list N) : string :=
  fold_right (fun c s => String (ascii_of_N c) s) EmptyString codes.

Fixpoint rev_onto (s acc : string) : string :=
  match s with
  | EmptyString => acc
  | String c s' => rev_onto s' (String c acc)
  end.

Definition rev (s : string) : string := rev_onto s EmptyString.

(** [drop_prefix p s] is the rest of [s] after its prefix [p], if [p] is one. *)
Fixpoint drop_prefix (p s : string) : option string :=
  match p, s with
  | EmptyString, _ => Some s
  | String a p', String b s' =>
      if Ascii.eqb a b then drop_prefix p' s' else None
  | String _ _, EmptyString => None
  end.

Definition startsWith (s p : string) : bool :=
  match drop_prefix p s with Some _ => true | None => false end.

Definition endsWith (s p : string) : bool := startsWith (rev s) (rev p).

(** ECMAScript WhiteSpace and LineTerminator code points, UTF-8 encoded:
    TAB, LF, VT, FF, CR, SP, U+00A0, U+1680, U+2000..U+200A, U+2028,
    U+2029, U+202F, U+205F, U+3000, U+FEFF. *)
Definition white_space : list string :=
  map bytes
    [ [9]; [10]; [11]; [12]; [13]; [32]; [194; 160]; [225; 154; 128];
      [226; 128; 128]; [226; 128; 129]; [226; 128; 130]; [226; 128; 131];
      [226; 128; 132]; [226; 128; 133]; [226; 128; 134]; [226; 128; 135];
      [226; 128; 136]; [226; 128; 137]; [226; 128; 138]; [226; 128; 168];
      [226; 128; 169]; [226; 128; 175]; [226; 129; 159]; [227; 128; 128];
      [239; 187; 191] ]%N.

Fixpoint strip_one (pats : list string) (s : string) : option string :=
  match pats with
  | [] => None
  | p :: pats' =>
      match drop_prefix p s with
      | Some rest => Some rest
      | None => strip_one pats' s
      end
  end.

Fixpoint strip (pats : list string) (fuel : nat) (s : string) : string :=
  match fuel with
  | O => s
  | S fuel' =>
      match strip_one pats s with
      | Some rest => strip pats fuel' rest
      | None => s
      end
  end.

Definition trimStart (s : string) : string :=
  strip white_space (String.length s) s.

Definition trimEnd (s : string) : string :=
  rev (strip (map rev white_space) (String.length s) (rev s)).

(** [String.prototype.trim] *)
Definition trim (s : string) : string := trimEnd (trimStart s).

(** [s.slice(0, -1)] *)
Definition dropLast (s : string) : string :=
  match rev s with
  | EmptyString => EmptyString
  | String _ r => rev r
  end.

Definition isEmpty (s : string) : bool :=
  match s with EmptyString => true | String _ _ => false end.

(** [a || b] on strings: the empty string is falsy. *)
Definition orElse (a b : string) : string := if isEmpty a then b else a.

End Str.

(** ** Numbers *)

Inductive number : Type :=
| NaN
| Infinity (negative : bool)
| Num (r : R).

Definition isNum (n : number) : bool :=
  match n with Num _ => true | _ => false end.

(** [a - b] *)
Definition minus (a b : number) : number :=
  match a, b with
  | NaN, _ | _, NaN => NaN
  | Infinity s, Infinity t => if Bool.eqb s t then NaN else Infinity s
  | Infinity s, Num _ => Infinity s
  | Num _, Infinity t => Infinity (negb t)
  | Num x, Num y => Num (x - y)
  end.

(** [a < b]: false as soon as one side is [NaN]. *)
Definition lessThan (a b : number) : Prop :=
  match a, b with
  | NaN, _ | _, NaN => False
  | Infinity s, Infinity t => s = true /\ t = false
  | Infinity s, Num _ => s = true
  | Num _, Infinity t => t = false
  | Num x, Num y => (x < y)%R
  end.

Definition isZero (r : R) : bool := if Req_dec_T r 0 then true else false.

Definition isNegative (r : R) : bool := if Rlt_dec r 0 then true else false.

(** [a + b] *)
Definition plus (a b : number) : number :=
  match a, b with
  | NaN, _ | _, NaN => NaN
  | Infinity s, Infinity t => if Bool.eqb s t then Infinity s else NaN
  | Infinity s, Num _ => Infinity s
  | Num _, Infinity t => Infinity t
  | Num x, Num y => Num (x + y)
  end.

(** [a * b] *)
Definition times (a b : number) : number :=
  match a, b with
  | NaN, _ | _, NaN => NaN
  | Infinity s, Infinity t => Infinity (xorb s t)
  | Infinity s, Num y => if isZero y then NaN else Infinity (xorb s (isNegative y))
  | Num x, Infinity t => if isZero x then NaN else Infinity (xorb (isNegative x) t)
  | Num x, Num y => Num (x * y)
  end.

(** [a / b]; a divisor that is zero counts as [+0]. *)
Definition divide (a b : number) : number :=
  match a, b with
  | NaN, _ | _, NaN => NaN
  | Infinity _, Infinity _ => NaN
  | Infinity s, Num y => Infinity (xorb s (isNegative y))
  | Num _, Infinity _ => Num 0
  | Num x, Num y =>
      if isZero y then (if isZero x then NaN else Infinity (isNegative x))
      else Num (x / y)
  end.

(** [a ** 2] *)
Definition squared (a : number) : number := times a a.

(** ** The great-circle distance *)

(** The formula on real numbers: what [haversineDistance] computes when its
    four arguments are finite (lemma [haversineDistance_finite]). *)
Module Haversine.

Local Open Scope R_scope.

(** [Math.atan2(y, x)] on real arguments. *)
Definition atan2 (y x : R) : R :=
  if Rlt_dec 0 x then atan (y / x)
  else if Rlt_dec x 0 then
    (if Rle_dec 0 y then atan (y / x) + PI else atan (y / x) - PI)
  else if Rlt_dec 0 y then PI / 2
  else if Rlt_dec y 0 then - PI / 2
  else 0.

Definition toRad (value : R) : R := (value * PI) / 180.

Definition earthRadius : R := 6371000.

(** The quantity [a] of the source. *)
Definition hav (lat1 lon1 lat2 lon2 : R) : R :=
  let phi1 := toRad lat1 in
  let phi2 := toRad lat2 in
  let dphi := toRad (lat2 - lat1) in
  let dlambda := toRad (lon2 - lon1) in
  (sin (dphi / 2)) ^ 2 + cos phi1 * cos phi2 * (sin (dlambda / 2)) ^ 2.

Definition distance (lat1 lon1 lat2 lon2 : R) : R :=
  let a := hav lat1 lon1 lat2 lon2 in
  let c := 2 * atan2 (sqrt a) (sqrt (1 - a)) in
  earthRadius * c.

End Haversine.

(** The functions of [Math] the program calls. *)
Module Math.

Definition PI : number := Num Rtrigo1.PI.

Definition sin (x : number) : number :=
  match x with
  | Num r => Num (Rtrigo_def.sin r)
  | _ => NaN
  end.

Definition cos (x : number) : number :=
  match x with
  | Num r => Num (Rtrigo_def.cos r)
  | _ => NaN
  end.

Definition sqrt (x : number) : number :=
  match x with
  | NaN => NaN
  | Infinity negative => if negative then NaN else Infinity false
  | Num r => if isNegative r then NaN else Num (R_sqrt.sqrt r)
  end.

Definition atan2 (y x : number) : number :=
  match y, x with
  | NaN, _ | _, NaN => NaN
  | Num b, Num a => Num (Haversine.atan2 b a)
  | Num b, Infinity false => Num 0
  | Num b, Infinity true =>
      Num (if isNegative b then - Rtrigo1.PI else Rtrigo1.PI)
  | Infinity s, Num _ =>
      Num (if s then - (Rtrigo1.PI / 2) else Rtrigo1.PI / 2)
  | Infinity s, Infinity false =>
      Num (if s then - (Rtrigo1.PI / 4) else Rtrigo1.PI / 4)
  | Infinity s, Infinity true =>
      Num (if s then - (3 * Rtrigo1.PI / 4) else 3 * Rtrigo1.PI / 4)
  end.

End Math.

(** [toRad], the local function of [haversineDistance]. *)
Definition toRad (value : number) : number :=
  divide (times value Math.PI) (Num 180).

Definition haversineDistance (lat1 lon1 lat2 lon2 : number) : number :=
  let R := Num 6371000 in
  let phi1 := toRad lat1 in
  let phi2 := toRad lat2 in
  let dphi := toRad (minus lat2 lat1) in
  let dlambda := toRad (minus lon2 lon1) in
  let a :=
    plus (squared (Math.sin (divide dphi (Num 2))))
         (times (times (Math.cos phi1) (Math.cos phi2))
                (squared (Math.sin (divide dlambda (Num 2))))) in
  let c := times (Num 2) (Math.atan2 (Math.sqrt a) (Math.sqrt (minus (Num 1) a))) in
  times R c.

Set Warnings "-register-all".

(** ** JavaScript values and exceptions *)

(** The values the handlers meet: what [JSON.parse] builds, and [undefined]
    for a property that is not there.  A number is any [number]: a JSON
    numeral beyond the range of binary64, such as [1e999], parses to
    [Infinity].  An object keeps its properties as a list of pairs with
    distinct keys. *)
Inductive value : Type :=
| VUndefined
| VNull
| VBool (b : bool)
| VNum (n : number)
| VStr (s : string)
| VArr (items : list value)
| VObj (fields : list (string * value)).

Inductive exn : Type :=
| Error (message : string)
| TypeError (message : string)
| SyntaxError (message : string).

(** [error.message] *)
Definition message (e : exn) : string :=
  match e with Error m | TypeError m | SyntaxError m => m end.

(** The text of the [TypeError] an engine raises when a property of
    [null] or [undefined] is read (the wording is V8's). *)
Definition nullish_message : string :=
  "Cannot read properties of null or undefined".

(** A computation that returns or throws. *)
Definition result (A : Type) : Type := (exn + A)%type.

Definition isNullish (v : value) : bool :=
  match v with VUndefined | VNull => true | _ => false end.

(** ToBoolean *)
Definition truthy (v : value) : bool :=
  match v with
  | VUndefined | VNull => false
  | VBool b => b
  | VNum NaN => false
  | VNum (Infinity _) => true
  | VNum (Num r) => if Req_dec_T r 0 then false else true
  | VStr s => negb (Str.isEmpty s)
  | VArr _ | VObj _ => true
  end.

Fixpoint assoc (k : string) (fields : list (string * value)) : option value :=
  match fields with
  | [] => None
  | (k', v) :: rest => if String.eqb k k' then Some v else assoc k rest
  end.

(** [v[k]] for a [v] that is neither [null] nor [undefined].  The keys the
    program reads are own properties of parsed objects only; on a
    primitive or an array they are [undefined]. *)
Definition prop (v : value) (k : string) : value :=
  match v with
  | VObj fields =>
      match assoc k fields with Some x => x | None => VUndefined end
  | _ => VUndefined
  end.

(** [v[k]], which throws on [null] and [undefined]. *)
Definition get (v : value) (k : string) : result value :=
  if isNullish v then inl (TypeError nullish_message) else inr (prop v k).

(** [v?.[k]] *)
Definition getOpt (v : value) (k : string) : value :=
  if isNullish v then VUndefined else prop v k.

(** [a || b] *)
Definition orValue (a b : value) : value := if truthy a then a else b.

Definition isNumber (v : value) : bool :=
  match v with VNum _ => true | _ => false end.

Fixpoint join (sep : string) (parts : list string) : string :=
  match parts with
  | [] => ""
  | [p] => p
  | p :: rest => p ++ sep ++ join sep rest
  end.

(** ** Parsing decimal numerals *)

Module Numeral.

Definition digit (c : ascii) : option Z :=
  let n := Z.of_N (N_of_ascii c) in
  if ((48 <=? n) && (n <=? 57))%Z then Some (n - 48)%Z else None.

(** The longest prefix of decimal digits: its value, its length, the rest. *)
Fixpoint digits (s : string) (acc : Z) (count : nat) : Z * nat * string :=
  match s with
  | EmptyString => (acc, count, s)
  | String c s' =>
      match digit c with
      | Some d => digits s' (10 * acc + d)%Z (S count)
      | None => (acc, count, s)
      end
  end.

(** An optional sign: [true] for a minus. *)
Definition sign (s : string) : bool * string :=
  match s with
  | String "-" s' => (true, s')
  | String "+" s' => (false, s')
  | _ => (false, s)
  end.

(** An optional exponent part; it counts only when a digit follows. *)
Definition exponent (s : string) : Z :=
  match s with
  | String c s' =>
      if (Ascii.eqb c "e" || Ascii.eqb c "E")%bool then
        let '(neg, s1) := sign s' in
        let '(e, n, _) := digits s1 0%Z O in
        match n with
        | O => 0%Z
        | S _ => if neg then (- e)%Z else e
        end
      else 0%Z
  | EmptyString => 0%Z
  end.

(** The least magnitude that rounds to an infinity: [2^1024 - 2^970]. *)
Definition overflow : R := IZR (2 ^ 1024 - 2 ^ 970).

(** [parseFloat] on a string: leading white space is skipped, then the
    longest prefix that is a decimal literal is read; a literal too large
    for a finite number gives an infinity. *)
Definition parseFloat (s : string) : number :=
  let '(neg, s1) := sign (Str.trimStart s) in
  if Str.startsWith s1 "Infinity" then Infinity neg
  else
    let '(i, ni, s2) := digits s1 0%Z O in
    let '(m, nm, s3) :=
      match s2 with
      | String "." s2' => digits s2' i ni
      | _ => (i, ni, s2)
      end in
    match nm with
    | O => NaN
    | S _ =>
        let scale := (exponent s3 - Z.of_nat (nm - ni))%Z in
        let magnitude := (IZR m * powerRZ 10 scale)%R in
        if Rle_dec overflow magnitude then Infinity neg
        else Num (if neg then (- magnitude)%R else magnitude)
    end.

End Numeral.

(** ** Records of the application *)

Module Place.
Record t : Type := { lat : number; lon : number; label : value }.
End Place.

Module Poi.
Record t : Type :=
  { id : value;
    name : value;
    category : string;
    lat : number;
    lon : number;
    distance : number;
    address : value }.
End Poi.

(** What [describeWeatherCode] returns: a text, or the member of
    [Object.prototype] that the table inherits under the name [key] (a
    function or an object, not a string). *)
Inductive described : Type :=
| Text (s : string)
| Inherited (key : string).

Module Weather.
Record t : Type :=
  { temperature : value;
    windSpeed : value;
    windDirection : value;
    description : described;
    observationTime : value }.
End Weather.

Record User : Type := { email : string }.

(** The state cells of the [App] component. *)
Record AppState : Type :=
  { isLoading : bool;
    errorMessage : string;
    selectedPlace : option Place.t;
    pois : list Poi.t;
    weatherInfo : option Weather.t;
    isTranslatorOpen : bool;
    isTranslating : bool;
    translationResult : string;
    translationError : string;
    currentUser : option User;
    authLoading : bool }.

(** ** The network *)

Inductive request : Type :=
| GeocodeRequest (q : string)
| WeatherRequest (latitude longitude : number)
| OverpassRequest (latitude longitude : number)
| TranslateRequest (endpoint text : string).

(** The text of a response body: either it is not JSON, and [JSON.parse]
    raises a [SyntaxError] with some message on it, or it is the text of a
    JSON document, kept as the value it denotes. *)
Inductive document : Type :=
| NotJson (text : string) (syntaxError : string)
| Json (v : value).

(** A response body: reading it can fail. *)
Inductive body : Type :=
| Unreadable (reason : exn)
| Readable (d : document).

Record response : Type := { ok : bool; status : Z; content : body }.

(** What the outside answers: each request is fulfilled with a response or
    rejected; when the two requests of a [Promise.all] both reject,
    [secondRejectsFirst] tells which rejection came first. *)
Record network : Type :=
  { answer : request -> result response;
    secondRejectsFirst : bool }.

(** ** Effects: the calls a handler makes, in order *)

Inductive event : Type :=
| SetIsLoading (b : bool)
| SetErrorMessage (s : string)
| SetSelectedPlace (p : option Place.t)
| SetPois (l : list Poi.t)
| SetWeatherInfo (w : option Weather.t)
| SetIsTranslating (b : bool)
| SetTranslationResult (s : string)
| SetTranslationError (s : string)
| Fetch (r : request).

Definition apply (st : AppState) (ev : event) : AppState :=
  match st with
  | Build_AppState il em sp ps wi ito it tr te cu al =>
      match ev with
      | SetIsLoading b => Build_AppState b em sp ps wi ito it tr te cu al
      | SetErrorMessage s => Build_AppState il s sp ps wi ito it tr te cu al
      | SetSelectedPlace p => Build_AppState il em p ps wi ito it tr te cu al
      | SetPois l => Build_AppState il em sp l wi ito it tr te cu al
      | SetWeatherInfo w => Build_AppState il em sp ps w ito it tr te cu al
      | SetIsTranslating b => Build_AppState il em sp ps wi ito b tr te cu al
      | SetTranslationResult s => Build_AppState il em sp ps wi ito it s te cu al
      | SetTranslationError s => Build_AppState il em sp ps wi ito it tr s cu al
      | Fetch _ => st
      end
  end.

(** The state after a handler has run. *)
Definition run (st : AppState) (trace : list event) : AppState :=
  fold_left apply trace st.

Definition isFetch (ev : event) : bool :=
  match ev with Fetch _ => true | _ => false end.

(** The number of network calls in a trace. *)
Definition networkCalls (trace : list event) : nat :=
  List.length (filter isFetch trace).

Module Eff.

(** The events emitted, then the value returned or the exception thrown. *)
Definition t (A : Type) : Type := (list event * result A)%type.

Definition ret {A} (a : A) : t A := ([], inr a).

Definition throw {A} (e : exn) : t A := ([], inl e).

Definition lift {A} (r : result A) : t A := ([], r).

Definition emit (ev : event) : t unit := ([ev], inr tt).

Definition bind {A B} (m : t A) (k : A -> t B) : t B :=
  match m with
  | (tr, inl e) => (tr, inl e)
  | (tr, inr a) => let '(tr', r) := k a in (tr ++ tr', r)
  end.

(** [try { body } catch (error) { handler error }] *)
Definition catch {A} (m : t A) (handler : exn -> t A) : t A :=
  match m with
  | (tr, inl e) => let '(tr', r) := handler e in (tr ++ tr', r)
  | (tr, inr a) => (tr, inr a)
  end.

(** [try { body } finally { final }] *)
Definition finally {A} (m : t A) (final : t unit) : t A :=
  let '(tr, r) := m in
  match final with
  | (tr', inl e) => (tr ++ tr', inl e)
  | (tr', inr _) => (tr ++ tr', r)
  end.

Definition trace {A} (m : t A) : list event := fst m.

Definition outcome {A} (m : t A) : result A := snd m.

End Eff.

Declare Scope eff_scope.
Delimit Scope eff_scope with eff.

Notation "x <- m ;; k" := (Eff.bind m (fun x => k))
  (at level 61, m at next level, right associativity) : eff_scope.
Notation "m ;; k" := (Eff.bind m (fun _ => k))
  (at level 61, right associativity) : eff_scope.

Definition bindResult {A B} (r : result A) (k : A -> result B) : result B :=
  match r with inl e => inl e | inr a => k a end.

(** [array.map(f)] with an [f] that can throw: the first exception ends it. *)
Fixpoint mapResult {A B} (f : A -> result B) (l : list A) : result (list B) :=
  match l with
  | [] => inr []
  | x :: rest =>
      bindResult (f x) (fun y =>
      bindResult (mapResult f rest) (fun ys => inr (y :: ys)))
  end.

(** [fetch(request)] *)
Definition fetch (net : network) (r : request) : Eff.t response :=
  ([Fetch r], answer net r).

(** [Promise.all([fetch(r1), fetch(r2)])]: both requests are issued; the
    result is rejected with the first rejection to happen. *)
Definition fetchBoth (net : network) (r1 r2 : request) : Eff.t (response * response) :=
  ([Fetch r1; Fetch r2],
   match answer net r1, answer net r2 with
   | inr a, inr b => inr (a, b)
   | inl e, inr _ => inl e
   | inr _, inl e => inl e
   | inl e1, inl e2 => inl (if secondRejectsFirst net then e2 else e1)
   end).

(** [response.text()] *)
Definition text (r : response) : result document :=
  match content r with
  | Unreadable e => inl e
  | Readable d => inr d
  end.

(** [JSON.parse(t)] *)
Definition JSON_parse (t : document) : result value :=
  match t with
  | NotJson _ m => inl (SyntaxError m)
  | Json v => inr v
  end.

(** [response.json()] *)
Definition json (r : response) : result value :=
  bindResult (text r) JSON_parse.

(** [t || '{}']: the text of a JSON document is never empty. *)
Definition orEmptyObjectText (t : document) : document :=
  match t with
  | NotJson s _ => if Str.isEmpty s then Json (VObj []) else t
  | Json _ => t
  end.

(** ** The components that call the handlers *)

Module LocationForm.

(** [handleSubmit] of [components/LocationForm.jsx], for the props
    [isDisabled] and [onSearch] and the text [value] of the input. *)
Definition handleSubmit (isDisabled : bool)
    (onSearch : option (string -> Eff.t unit)) (value : string) : Eff.t unit :=
  if negb isDisabled then
    match onSearch with
    | Some search => search value
    | None => Eff.ret tt
    end
  else Eff.ret tt.

End LocationForm.

Module TranslationPopup.

(** [handleSubmit] of [components/TranslationPopup.jsx], for the prop
    [onTranslate] and the text [inputValue] of the text area. *)
Definition handleSubmit (onTranslate : option (string -> Eff.t unit))
    (inputValue : string) : Eff.t unit :=
  match onTranslate with
  | Some translate => translate inputValue
  | None => Eff.ret tt
  end.

End TranslationPopup.

(** ** The sign-in panel *)

Module AuthPanel.

Inductive authMode : Type := login | register.

(** The state cells of the [AuthPanel] component. *)
Record state : Type :=
  { mode : authMode;
    email : string;
    password : string;
    confirmPassword : string;
    isSubmitting : bool;
    errorMessage : string }.

(** The initial values given to [useState]. *)
Definition initial : state :=
  {| mode := login; email := ""; password := ""; confirmPassword := "";
     isSubmitting := false; errorMessage := "" |}.

(** The two operations of the identity provider the panel calls. *)
Inductive call : Type :=
| createUserWithEmailAndPassword (email password : string)
| signInWithEmailAndPassword (email password : string).

Inductive event : Type :=
| SetErrorMessage (s : string)
| SetIsSubmitting (b : bool)
| SetEmail (s : string)
| SetPassword (s : string)
| SetConfirmPassword (s : string)
| Call (c : call).

Definition apply (st : state) (ev : event) : state :=
  match st with
  | Build_state m e p c s err =>
      match ev with
      | SetErrorMessage x => Build_state m e p c s x
      | SetIsSubmitting x => Build_state m e p c x err
      | SetEmail x => Build_state m x p c s err
      | SetPassword x => Build_state m e x c s err
      | SetConfirmPassword x => Build_state m e p x s err
      | Call _ => st
      end
  end.

Definition run (st : state) (trace : list event) : state :=
  fold_left apply trace st.

(** The calls made to the identity provider, in order. *)
Fixpoint calls (trace : list event) : list call :=
  match trace with
  | [] => []
  | Call c :: rest => c :: calls rest
  | _ :: rest => calls rest
  end.

Definition isRegister (m : authMode) : bool :=
  match m with register => true | login => false end.

(** The operation the [try] block awaits. *)
Definition operation (st : state) : call :=
  match mode st with
  | register => createUserWithEmailAndPassword (email st) (password st)
  | login => signInWithEmailAndPassword (email st) (password st)
  end.

(** [handleSubmit]: the calls it makes, in order, in the state [st] of
    the render and for a provider that fulfils or rejects each call. *)
Definition handleSubmit (st : state) (provider : call -> result unit) : list event :=
  SetErrorMessage ""
  :: (if (Str.isEmpty (Str.trim (email st)) || Str.isEmpty (Str.trim (password st)))%bool
      then [ SetErrorMessage "Vui lòng nhập email và mật khẩu." ]
      else if (isRegister (mode st)
               && negb (String.eqb (password st) (confirmPassword st)))%bool
      then [ SetErrorMessage "Mật khẩu xác nhận không khớp." ]
      else
        SetIsSubmitting true
        :: Call (operation st)
        :: match provider (operation st) with
           | inr _ => [ SetEmail ""; SetPassword ""; SetConfirmPassword "" ]
           | inl error =>
               [ SetErrorMessage
                   (Str.orElse (message error) "Không thể xử lý yêu cầu.") ]
           end
        ++ [ SetIsSubmitting false ]).

(** *** Inputs of the examples *)

(** A registration whose confirmation differs from the password. *)
Definition mismatch : state :=
  {| mode := register; email := "an@example.com"; password := "secret1";
     confirmPassword := "secret2"; isSubmitting := false; errorMessage := "" |}.

(** A sign-in. *)
Definition attempt : state :=
  {| mode := login; email := "an@example.com"; password := "secret1";
     confirmPassword := ""; isSubmitting := false; errorMessage := "" |}.

(** A provider that accepts every call, and one that refuses every call. *)
Definition accept (c : call) : result unit := inr tt.

Definition refuse (c : call) : result unit := inl (Error "auth/wrong-password").

End AuthPanel.

(** ** The program *)

Section Engine.

(** [Number.prototype.toString] of the engine, on finite numbers. *)
Variable numberToString : R -> string.

(** ToString *)
Fixpoint toString (v : value) : string :=
  match v with
  | VUndefined => "undefined"
  | VNull => "null"
  | VBool true => "true"
  | VBool false => "false"
  | VNum NaN => "NaN"
  | VNum (Infinity negative) => if negative then "-Infinity" else "Infinity"
  | VNum (Num r) => numberToString r
  | VStr s => s
  | VArr items =>
      join "," (map (fun x => if isNullish x then "" else toString x) items)
  | VObj _ => "[object Object]"
  end.

(** [parseFloat(v)] *)
Definition parseFloat (v : value) : number := Numeral.parseFloat (toString v).

(** *** Module constants *)

Definition normalizeBaseUrl (rawUrl : value) : string :=
  match rawUrl with
  | VStr s => if Str.endsWith s "/" then Str.dropLast s else s
  | _ => ""
  end.

(** [env] is [import.meta.env.VITE_TRANSLATION_API_BASE_URL]. *)
Definition TRANSLATION_API_BASE_URL (env : value) : string := normalizeBaseUrl env.

Definition TRANSLATION_ENDPOINT (env : value) : string :=
  if Str.isEmpty (TRANSLATION_API_BASE_URL env) then ""
  else TRANSLATION_API_BASE_URL env ++ "/translate".

(** *** [buildPoiLabel], [buildCategory], [describeWeatherCode] *)

(** A parameter with the default [{}]. *)
Definition orEmptyObject (v : value) : value :=
  match v with VUndefined => VObj [] | _ => v end.

Definition buildPoiLabel (tags : value) : result value :=
  let tags := orEmptyObject tags in
  bindResult (get tags "name") (fun name =>
  if truthy name then inr name else
  bindResult (get tags "name:vi") (fun nameVi =>
  if truthy nameVi then inr nameVi else
  bindResult (get tags "name:en") (fun nameEn =>
  if truthy nameEn then inr nameEn else
  bindResult (get tags "amenity") (fun amenity =>
  if truthy amenity then inr amenity else
  bindResult (get tags "tourism") (fun tourism =>
  if truthy tourism then inr tourism else
  bindResult (get tags "leisure") (fun leisure =>
  if truthy leisure then inr leisure else
  inr (VStr "Point of interest"))))))).

Definition candidates : list string :=
  ["tourism"; "amenity"; "historic"; "leisure"; "shop"].

Definition buildCategory (tags : value) : result string :=
  let tags := orEmptyObject tags in
  if isNullish tags then inl (TypeError nullish_message)
  else
    match find (fun field => truthy (prop tags field)) candidates with
    | Some key => inr (key ++ ": " ++ toString (prop tags key))%string
    | None => inr "Other"
    end.

Definition lookup : list (string * string) :=
  [ ("0", "Clear sky"); ("1", "Mainly clear"); ("2", "Partly cloudy");
    ("3", "Overcast"); ("45", "Fog"); ("48", "Depositing rime fog");
    ("51", "Light drizzle"); ("53", "Moderate drizzle");
    ("55", "Dense drizzle"); ("56", "Light freezing drizzle");
    ("57", "Dense freezing drizzle"); ("61", "Slight rain");
    ("63", "Moderate rain"); ("65", "Heavy rain");
    ("66", "Light freezing rain"); ("67", "Heavy freezing rain");
    ("71", "Slight snow fall"); ("73", "Moderate snow fall");
    ("75", "Heavy snow fall"); ("77", "Snow grains");
    ("80", "Rain showers: slight"); ("81", "Rain showers: moderate");
    ("82", "Rain showers: violent"); ("85", "Snow showers: slight");
    ("86", "Snow showers: heavy"); ("95", "Thunderstorm");
    ("96", "Thunderstorm with slight hail");
    ("99", "Thunderstorm with heavy hail") ].

(** The names of the members an object literal inherits from
    [Object.prototype]. *)
Definition inherited : list string :=
  [ "constructor"; "hasOwnProperty"; "isPrototypeOf"; "propertyIsEnumerable";
    "toLocaleString"; "toString"; "valueOf"; "__proto__";
    "__defineGetter__"; "__defineSetter__"; "__lookupGetter__";
    "__lookupSetter__" ].

(** [lookup[code] || 'Weather data unavailable'], the key being the
    string of [code]: an entry of the table, else a member the table
    inherits, which is truthy, else [undefined]. *)
Definition describeWeatherCode (code : value) : described :=
  let key := toString code in
  match find (fun entry => String.eqb (fst entry) key) lookup with
  | Some entry => Text (Str.orElse (snd entry) "Weather data unavailable")
  | None =>
      if existsb (String.eqb key) inherited then Inherited key
      else Text "Weather data unavailable"
  end.

(** *** Normalize, rank, truncate *)

(** [typeof nodeLat === 'number' ? nodeLat : center?.lat] *)
Definition resultLat (element : value) : value :=
  let nodeLat := prop element "lat" in
  let center := prop element "center" in
  if isNumber nodeLat then nodeLat else getOpt center "lat".

(** [typeof nodeLon === 'number' ? nodeLon : center?.lon] *)
Definition resultLon (element : value) : value :=
  let nodeLon := prop element "lon" in
  let center := prop element "center" in
  if isNumber nodeLon then nodeLon else getOpt center "lon".

(** The callback of [elements.map]: [inr None] is the [null] it returns
    for an element without coordinates. *)
Definition formatElement (latitude longitude : number) (element : value)
  : result (option Poi.t) :=
  if isNullish element then inl (TypeError nullish_message)
  else
    let tags := orEmptyObject (prop element "tags") in
    let id := prop element "id" in
    match resultLat element, resultLon element with
    | VNum rlat, VNum rlon =>
        let distance := haversineDistance latitude longitude rlat rlon in
        bindResult (buildPoiLabel tags) (fun name =>
        bindResult (buildCategory tags) (fun category =>
        bindResult (get tags "addr:street") (fun street =>
        bindResult (get tags "addr:full") (fun full =>
        inr (Some {| Poi.id := id;
                     Poi.name := name;
                     Poi.category := category;
                     Poi.lat := rlat;
                     Poi.lon := rlon;
                     Poi.distance := distance;
                     Poi.address := orValue (orValue street full) VNull |})))))
    | _, _ => inr None
    end.

(** [.filter(Boolean)] on the mapped array: the [null]s go. *)
Fixpoint filterBoolean (l : list (option Poi.t)) : list Poi.t :=
  match l with
  | [] => []
  | Some p :: rest => p :: filterBoolean rest
  | None :: rest => filterBoolean rest
  end.

(** The comparator [(a, b) => a.distance - b.distance]. *)
Definition byDistance (a b : Poi.t) : number :=
  minus (Poi.distance a) (Poi.distance b).

(** What [sort] makes of a comparator result [v]: [v > 0] puts the
    second argument first; a [NaN] counts as [+0]. *)
Definition isPositive (v : number) : bool :=
  match v with
  | Num r => if Rlt_dec 0 r then true else false
  | Infinity negative => negb negative
  | NaN => false
  end.

Fixpoint insert (compare : Poi.t -> Poi.t -> number) (x : Poi.t) (l : list Poi.t)
  : list Poi.t :=
  match l with
  | [] => [x]
  | y :: rest =>
      if isPositive (compare x y) then y :: insert compare x rest
      else x :: y :: rest
  end.

(** [Array.prototype.sort(compare)]: a stable sort, here by insertion. *)
Fixpoint sort (compare : Poi.t -> Poi.t -> number) (l : list Poi.t) : list Poi.t :=
  match l with
  | [] => []
  | x :: rest => insert compare x (sort compare rest)
  end.

(** The chain [elements.map(...).filter(Boolean).sort(...).slice(0, 5)]. *)
Definition formatted (latitude longitude : number) (elements : list value)
  : result (list Poi.t) :=
  bindResult (mapResult (formatElement latitude longitude) elements) (fun mapped =>
  inr (firstn 5 (sort byDistance (filterBoolean mapped)))).

(** *** [handleSearch] *)

Local Open Scope eff_scope.

Definition weatherSnapshot (current : value) : Weather.t :=
  {| Weather.temperature := prop current "temperature";
     Weather.windSpeed := prop current "windspeed";
     Weather.windDirection := prop current "winddirection";
     Weather.description := describeWeatherCode (prop current "weathercode");
     Weather.observationTime := prop current "time" |}.

(** The statements from [if (weatherResponse.ok)] to its end. *)
Definition publishWeather (weatherResponse : response) : Eff.t unit :=
  if ok weatherResponse then
    weatherJson <- Eff.lift (json weatherResponse) ;;
    let current := getOpt weatherJson "current_weather" in
    if truthy current then
      Eff.emit (SetWeatherInfo (Some (weatherSnapshot current)))
    else Eff.emit (SetWeatherInfo None)
  else Eff.emit (SetWeatherInfo None).

(** The statements from [const poiData] to [setPois(formatted)]. *)
Definition publishPois (latitude longitude : number) (poiResponse : response)
  : Eff.t unit :=
  poiData <- Eff.lift (json poiResponse) ;;
  found <- Eff.lift (get poiData "elements") ;;
  let elements := match found with VArr items => items | _ => [] end in
  result <- Eff.lift (formatted latitude longitude elements) ;;
  (if Nat.eqb (List.length result) 0 then
     Eff.emit (SetErrorMessage "No notable places found within 2km of this location.")
   else Eff.ret tt) ;;
  Eff.emit (SetPois result).

(** The statements after the geocoder's first match has been taken. *)
Definition searchAround (net : network) (first : value) : Eff.t unit :=
  if isNullish first then Eff.throw (TypeError nullish_message)
  else
    let latitude := parseFloat (prop first "lat") in
    let longitude := parseFloat (prop first "lon") in
    Eff.emit (SetSelectedPlace
                (Some {| Place.lat := latitude;
                         Place.lon := longitude;
                         Place.label := prop first "display_name" |})) ;;
    both <- fetchBoth net (WeatherRequest latitude longitude)
                          (OverpassRequest latitude longitude) ;;
    let '(weatherResponse, poiResponse) := both in
    if negb (ok poiResponse) then
      Eff.throw (Error "Unable to fetch nearby points of interest.")
    else
      publishWeather weatherResponse ;;
      publishPois latitude longitude poiResponse.

(** The body of the [try] block. *)
Definition searchBody (net : network) (trimmed : string) : Eff.t unit :=
  geocodeResponse <- fetch net (GeocodeRequest trimmed) ;;
  if negb (ok geocodeResponse) then
    Eff.throw (Error "Unable to locate the place, please try again.")
  else
    geocodeData <- Eff.lift (json geocodeResponse) ;;
    match geocodeData with
    | VArr (first :: _) => searchAround net first
    | _ => Eff.throw (Error "No matching location found in Vietnam.")
    end.

Definition searchFailed (error : exn) : Eff.t unit :=
  Eff.emit (SetErrorMessage
              (Str.orElse (message error) "Something went wrong, please try again.")).

Definition handleSearch (user : option User) (userQuery : string) (net : network)
  : Eff.t unit :=
  match user with
  | None => Eff.emit (SetErrorMessage "Vui lòng đăng nhập để tìm kiếm địa điểm.")
  | Some _ =>
      let trimmed := Str.trim userQuery in
      if Str.isEmpty trimmed then
        Eff.emit (SetErrorMessage "Please enter a location name.")
      else
        Eff.emit (SetIsLoading true) ;;
        Eff.emit (SetErrorMessage "") ;;
        Eff.emit (SetPois []) ;;
        Eff.emit (SetWeatherInfo None) ;;
        Eff.finally (Eff.catch (searchBody net trimmed) searchFailed)
                    (Eff.emit (SetIsLoading false))
  end.

(** *** [handleTranslate] *)

(** The inner [try] of the failure branch: the detail read from the error
    body, [''] when there is none or the body is malformed. *)
Definition errorDetail (errorText : document) : string :=
  match JSON_parse (orEmptyObjectText errorText) with
  | inr parsed =>
      match getOpt parsed "detail" with
      | VStr detail => detail
      | _ =>
          match getOpt parsed "error" with
          | VStr detail => detail
          | _ => ""
          end
      end
  | inl _ => ""
  end.

(** The body of the [try] block. *)
Definition translateBody (net : network) (endpoint trimmed : string) : Eff.t unit :=
  r <- fetch net (TranslateRequest endpoint trimmed) ;;
  if negb (ok r) then
    let fallback :=
      ("Translation service returned status "
         ++ numberToString (IZR (status r)) ++ ".")%string in
    errorText <- Eff.lift (text r) ;;
    Eff.throw (Error (Str.orElse (errorDetail errorText) fallback))
  else
    data <- Eff.lift (json r) ;;
    let translatedText :=
      match getOpt data "translated_text" with
      | VStr s => Str.trim s
      | _ => ""
      end in
    if Str.isEmpty translatedText then
      Eff.throw (Error "Translation service did not return any translated text.")
    else Eff.emit (SetTranslationResult translatedText).

Definition translateFailed (error : exn) : Eff.t unit :=
  Eff.emit (SetTranslationError
              (Str.orElse (message error) "Unable to translate this sentence.")).

Definition handleTranslate (env : value) (user : option User) (englishText : string)
    (net : network) : Eff.t unit :=
  match user with
  | None =>
      Eff.emit (SetTranslationError "Bạn cần đăng nhập trước khi sử dụng công cụ dịch.")
  | Some _ =>
      let trimmed := Str.trim englishText in
      if Str.isEmpty trimmed then
        Eff.emit (SetTranslationError "Please enter an English sentence to translate.") ;;
        Eff.emit (SetTranslationResult "")
      else if Str.isEmpty (TRANSLATION_ENDPOINT env) then
        Eff.emit (SetTranslationError
                    "Translation service is not configured. Please set VITE_TRANSLATION_API_BASE_URL.") ;;
        Eff.emit (SetTranslationResult "")
      else
        Eff.emit (SetIsTranslating true) ;;
        Eff.emit (SetTranslationError "") ;;
        Eff.emit (SetTranslationResult "") ;;
        Eff.finally
          (Eff.catch (translateBody net (TRANSLATION_ENDPOINT env) trimmed)
                     translateFailed)
          (Eff.emit (SetIsTranslating false))
  end.

(** *** Initial state and inputs of the examples *)

(** The initial values given to [useState]. *)
Definition initialState : AppState :=
  {| isLoading := false;
     errorMessage := "";
     selectedPlace := None;
     pois := [];
     weatherInfo := None;
     isTranslatorOpen := false;
     isTranslating := false;
     translationResult := "";
     translationError := "";
     currentUser := None;
     authLoading := true |}.

(** An engine for the examples: the decimal numeral of the integer part,
    which is what [Number.prototype.toString] gives on the integers the
    examples print. *)
Definition integerToString (r : R) : string :=
  NilZero.string_of_int (Z.to_int (Int_part r)).

Definition sampleUser : User := {| email := "student@example.com" |}.

Definition okResponse (v : value) : response :=
  {| ok := true; status := 200; content := Readable (Json v) |}.

Definition statusResponse (code : Z) (d : document) : response :=
  {| ok := false; status := code; content := Readable d |}.

(** A network that answers each kind of request in a fixed way. *)
Definition networkOf (geocode weather overpass translate : result response)
  : network :=
  {| answer := fun r =>
       match r with
       | GeocodeRequest _ => geocode
       | WeatherRequest _ _ => weather
       | OverpassRequest _ _ => overpass
       | TranslateRequest _ _ => translate
       end;
     secondRejectsFirst := false |}.

Definition hanoi : value :=
  VObj [ ("lat", VStr "21.0285"); ("lon", VStr "105.8542");
         ("display_name", VStr "Hanoi, Vietnam") ].

Definition currentWeather : value :=
  VObj [ ("current_weather",
          VObj [ ("temperature", VNum (Num 31)); ("windspeed", VNum (Num 7));
                 ("winddirection", VNum (Num 120)); ("weathercode", VNum (Num 3));
                 ("time", VStr "2024-05-01T10:00") ]) ].

Definition cafe : value :=
  VObj [ ("id", VNum (Num 1)); ("lat", VNum (Num 21)); ("lon", VNum (Num 105));
         ("tags", VObj [ ("amenity", VStr "cafe") ]) ].

Definition museum : value :=
  VObj [ ("id", VNum (Num 2));
         ("center", VObj [ ("lat", VNum (Num 21)); ("lon", VNum (Num 106)) ]);
         ("tags", VObj [ ("tourism", VStr "museum"); ("amenity", VStr "cafe");
                         ("name", VStr "Bao tang") ]) ].

(** A feature with neither coordinates nor centroid. *)
Definition relation : value :=
  VObj [ ("id", VNum (Num 3)); ("tags", VObj [ ("leisure", VStr "park") ]) ].

(** A feature whose own [lon] is missing and whose centroid has only a
    [lon]. *)
Definition halfCentroid : value :=
  VObj [ ("id", VNum (Num 7)); ("lat", VNum (Num 21));
         ("center", VObj [ ("lon", VNum (Num 105)) ]) ].

(** Three features as a POI answer lists them: one a degree of latitude
    away, one whose latitude is the numeral [1e999], one at the search
    center (21, 105) itself. *)
Definition farther : value :=
  VObj [ ("id", VNum (Num 10)); ("lat", VNum (Num 22)); ("lon", VNum (Num 105)) ].

Definition overflowing : value :=
  VObj [ ("id", VNum (Num 11)); ("lat", VNum (Infinity false));
         ("lon", VNum (Num 105)) ].

Definition nearby : value :=
  VObj [ ("id", VNum (Num 12)); ("lat", VNum (Num 21)); ("lon", VNum (Num 105)) ].

Definition features : value :=
  VObj [ ("elements", VArr [ cafe; relation; museum; cafe; museum; cafe; museum ]) ].

Definition failedToFetch : exn := TypeError "Failed to fetch".

(** Every service answers. *)
Definition allUp : network :=
  networkOf (inr (okResponse (VArr [ hanoi ])))
            (inr (okResponse currentWeather))
            (inr (okResponse features))
            (inr (okResponse (VObj [ ("translated_text", VStr "Xin chao") ]))).

(** The weather service answers; the POI service answers with a success
    status and a body that is not JSON. *)
Definition brokenPoiBody : network :=
  networkOf (inr (okResponse (VArr [ hanoi ])))
            (inr (okResponse currentWeather))
            (inr {| ok := true; status := 200;
                    content := Readable (NotJson "<html>busy</html>"
                                                 "Unexpected token '<'") |})
            (inl failedToFetch).

(** The weather service cannot be reached; the POI service answers. *)
Definition weatherDown : network :=
  networkOf (inr (okResponse (VArr [ hanoi ])))
            (inl failedToFetch)
            (inr (okResponse features))
            (inl failedToFetch).

(** The geocoder's first match has a latitude that is not a numeral; the
    two other services refuse the request built from it. *)
Definition badLatitude : value :=
  VObj [ ("lat", VStr "abc"); ("lon", VStr "105.8542");
         ("display_name", VStr "Hanoi, Vietnam") ].

Definition badGeocoder : network :=
  networkOf (inr (okResponse (VArr [ badLatitude ])))
            (inr (statusResponse 400 (Json (VObj [ ("error", VBool true) ]))))
            (inr (statusResponse 400 (NotJson "bad request" "Unexpected token 'b'")))
            (inl failedToFetch).

(** The translation service answers without a translation. *)
Definition noTranslation : network :=
  networkOf (inl failedToFetch) (inl failedToFetch) (inl failedToFetch)
            (inr (okResponse (VObj [ ("translated_text", VStr "   ") ]))).

(** *** Vocabulary of the statements *)

(** The translated-text field of [data] is missing, is not a string, or
    trims to the empty string. *)
Definition lacksTranslation (data : value) : Prop :=
  match getOpt data "translated_text" with
  | VStr s => Str.trim s = ""
  | _ => True
  end.

(** A field of a tag mapping is present when it holds a truthy value: a
    tag whose value is the empty string counts as absent. *)
Definition present (tags : value) (field : string) : bool :=
  truthy (prop tags field).

(** The first present field of [tags] among [fields], in that order. *)
Fixpoint firstPresent (tags : value) (fields : list string) : option string :=
  match fields with
  | [] => None
  | field :: rest =>
      if present tags field then Some field else firstPresent tags rest
  end.

(** The fields a name is taken from, by priority. *)
Definition nameFields : list string :=
  ["name"; "name:vi"; "name:en"; "amenity"; "tourism"; "leisure"].



(** A feature has no direct point coordinate: [lat] or [lon] is not a
    number. *)
Definition lacksDirectCoordinate (element : value) : bool :=
  negb (isNumber (prop element "lat") && isNumber (prop element "lon")).

(** A coordinate of a feature can be resolved neither from the feature
    itself nor from its centroid: the field [field] is a number in
    neither. *)
Definition unresolved (element : value) (field : string) : bool :=
  negb (isNumber (prop element field))
  && negb (isNumber (getOpt (prop element "center") field)).

(** The centroid of a feature has both coordinates. *)
Definition hasCentroid (element : value) : bool :=
  isNumber (getOpt (prop element "center") "lat")
  && isNumber (getOpt (prop element "center") "lon").

(** A feature has no centroid: [center] is absent, or its [lat] or its
    [lon] is not a number. *)
Definition lacksCentroid (element : value) : bool := negb (hasCentroid element).

(** A well-formed feature is a record whose tag mapping, when it has
    one, is not [null]. *)
Definition wellFormedFeature (element : value) : bool :=
  negb (isNullish element)
  && match prop element "tags" with VNull => false | _ => true end.

(** [b] does not come before [a] in distance: [b.distance < a.distance]
    is false. *)
Definition notAfter (a b : Poi.t) : Prop :=
  ~ lessThan (Poi.distance b) (Poi.distance a).

(** [a.distance <= b.distance], which is false as soon as one of the two
    distances is [NaN]. *)
Definition noFarther (a b : Poi.t) : Prop :=
  lessThan (Poi.distance a) (Poi.distance b)
  \/ (Poi.distance a = Poi.distance b /\ Poi.distance a <> NaN).

(** The coordinates of [p] are the numbers resolved from [element]. *)
Definition locatedBy (element : value) (p : Poi.t) : Prop :=
  resultLat element = VNum (Poi.lat p) /\ resultLon element = VNum (Poi.lon p).

(** The mapped and filtered array, before it is sorted. *)
Definition kept (latitude longitude : number) (elements : list value)
  : result (list Poi.t) :=
  bindResult (mapResult (formatElement latitude longitude) elements)
             (fun mapped => inr (filterBoolean mapped)).

(** The events that leave the loading flag, the error message, the POI
    list and the weather snapshot alone. *)
Definition keepsSession (ev : event) : bool :=
  match ev with
  | Fetch _ | SetSelectedPlace _ => true
  | _ => false
  end.


(** The [elements] array read from the body of a POI response. *)
Definition elementsOf (poiData : value) : list value :=
  match prop poiData "elements" with VArr items => items | _ => [] end.

(** A state left by an earlier, successful search. *)
Definition staleState : AppState :=
  {| isLoading := false;
     errorMessage := "";
     selectedPlace :=
       Some {| Place.lat := Num 16; Place.lon := Num 108;
               Place.label := VStr "Da Nang, Vietnam" |};
     pois :=
       [ {| Poi.id := VNum (Num 9); Poi.name := VStr "Cau Rong";
            Poi.category := "tourism: attraction";
            Poi.lat := Num 16; Poi.lon := Num 108; Poi.distance := Num 0;
            Poi.address := VNull |} ];
     weatherInfo :=
       Some {| Weather.temperature := VNum (Num 29); Weather.windSpeed := VNum (Num 4);
               Weather.windDirection := VNum (Num 90);
               Weather.description := Text "Clear sky";
               Weather.observationTime := VStr "2024-04-30T09:00" |};
     isTranslatorOpen := false;
     isTranslating := false;
     translationResult := "";
     translationError := "";
     currentUser := Some sampleUser;
     authLoading := false |}.

(** The place [searchAround] stores for the geocoder's first match. *)
Definition placeOf (first : value) : Place.t :=
  {| Place.lat := parseFloat (prop first "lat");
     Place.lon := parseFloat (prop first "lon");
     Place.label := prop first "display_name" |}.

(** The calls [searchAround] makes before it looks at the two answers. *)
Definition fanOut (first : value) : list event :=
  [ SetSelectedPlace (Some (placeOf first));
    Fetch (WeatherRequest (Place.lat (placeOf first)) (Place.lon (placeOf first)));
    Fetch (OverpassRequest (Place.lat (placeOf first)) (Place.lon (placeOf first))) ].

(** The calls that publish a result list. *)
Definition publication (result : list Poi.t) : list event :=
  (if Nat.eqb (List.length result) 0
   then [SetErrorMessage "No notable places found within 2km of this location."]
   else []) ++ [SetPois result].

(** The calls [handleSearch] makes before its [try] block. *)
Definition opening : list event :=
  [ SetIsLoading true; SetErrorMessage ""; SetPois []; SetWeatherInfo None ].

(** The calls of the [catch] and [finally] blocks. *)
Definition closing (outcome : result unit) : list event :=
  match outcome with
  | inl error =>
      [ SetErrorMessage
          (Str.orElse (message error) "Something went wrong, please try again.") ]
  | inr _ => []
  end ++ [ SetIsLoading false ].

(** The search took the geocoder's first match, got both answers for its
    place, published the weather [w] it read from the weather response,
    and then threw [e] while it read and normalized the body of a POI
    response that had a success status. *)
Definition failedOnPois (net : network) (trimmed : string) (e : exn)
    (w : option Weather.t) : Prop :=
  exists geocodeResponse first rest weatherResponse poiResponse,
    answer net (GeocodeRequest trimmed) = inr geocodeResponse /\
    ok geocodeResponse = true /\
    json geocodeResponse = inr (VArr (first :: rest)) /\
    answer net (WeatherRequest (Place.lat (placeOf first)) (Place.lon (placeOf first)))
      = inr weatherResponse /\
    publishWeather weatherResponse = ([SetWeatherInfo w], inr tt) /\
    answer net (OverpassRequest (Place.lat (placeOf first)) (Place.lon (placeOf first)))
      = inr poiResponse /\
    ok poiResponse = true /\
    Eff.outcome (publishPois (Place.lat (placeOf first)) (Place.lon (placeOf first))
                             poiResponse) = inl e.

(** *** Vocabulary of the further properties *)

(** The requests a trace sends, in order. *)
Fixpoint requests (tr : list event) : list request :=
  match tr with
  | [] => []
  | Fetch r :: rest => r :: requests rest
  | _ :: rest => requests rest
  end.

(** The condition under which the result panel prints "No matching
    points of interest in this area.":
    [!isLoading && selectedPlace && pois.length === 0 && !errorMessage]. *)
Definition showsNoMatches (st : AppState) : bool :=
  negb (isLoading st)
  && match selectedPlace st with Some _ => true | None => false end
  && Nat.eqb (List.length (pois st)) 0
  && Str.isEmpty (errorMessage st).

(** The message a result list is published with. *)
Definition resultMessage (result : list Poi.t) : string :=
  match result with
  | [] => "No notable places found within 2km of this location."
  | _ :: _ => ""
  end.

(** The arguments of the calls to [setIsLoading] in a trace, in order. *)
Fixpoint loadingCalls (tr : list event) : list bool :=
  match tr with
  | [] => []
  | SetIsLoading b :: rest => b :: loadingCalls rest
  | _ :: rest => loadingCalls rest
  end.

(** The message of a translation request answered with a failure status. *)
Definition statusFallback (r : response) : string :=
  ("Translation service returned status "
     ++ numberToString (IZR (status r)) ++ ".")%string.

(** The calls [handleTranslate] makes before its [try] block. *)
Definition translateOpening : list event :=
  [ SetIsTranslating true; SetTranslationError ""; SetTranslationResult "" ].

(** [p.distance === d], for a number [d]. *)
Definition hasDistance (d : R) (p : Poi.t) : bool :=
  match Poi.distance p with
  | Num x => if Req_dec_T x d then true else false
  | _ => false
  end.

(** The POI [p] is the one the chain makes of the feature [element]. *)
Definition madeFrom (latitude longitude : number) (element : value) (p : Poi.t)
  : Prop :=
  let tags := orEmptyObject (prop element "tags") in
  Poi.id p = prop element "id" /\
  buildPoiLabel tags = inr (Poi.name p) /\
  buildCategory tags = inr (Poi.category p) /\
  locatedBy element p /\
  Poi.distance p
    = haversineDistance latitude longitude (Poi.lat p) (Poi.lon p) /\
  Poi.address p
    = orValue (orValue (prop tags "addr:street") (prop tags "addr:full")) VNull.


(** The condition under which the translation dialog prints the
    translation: [result && !error]. *)
Definition showsTranslation (st : AppState) : bool :=
  negb (Str.isEmpty (translationResult st)) && Str.isEmpty (translationError st).

(** [<LocationForm onSearch={handleSearch} isDisabled={!currentUser} />]
    submitted with the text [value]. *)
Definition submitLocation (user : option User) (value : string) (net : network)
  : Eff.t unit :=
  LocationForm.handleSubmit
    (match user with None => true | Some _ => false end)
    (Some (fun userQuery => handleSearch user userQuery net))
    value.

(** [<TranslationPopup onTranslate={handleTranslate} />] submitted with
    the text [inputValue]. *)
Definition submitTranslation (env : value) (user : option User)
    (inputValue : string) (net : network) : Eff.t unit :=
  TranslationPopup.handleSubmit
    (Some (fun englishText => handleTranslate env user englishText net))
    inputValue.

(** *** The other handlers and effects of [App] *)

(** [setIsTranslatorOpen(b)] *)
Definition setIsTranslatorOpen (b : bool) (st : AppState) : AppState :=
  match st with
  | Build_AppState il em sp ps wi _ it tr te cu al =>
      Build_AppState il em sp ps wi b it tr te cu al
  end.

(** The callback given to [onAuthStateChanged]:
    [setCurrentUser(firebaseUser); setAuthLoading(false)]. *)
Definition authStateChanged (firebaseUser : option User) (st : AppState) : AppState :=
  match st with
  | Build_AppState il em sp ps wi ito it tr te _ _ =>
      Build_AppState il em sp ps wi ito it tr te firebaseUser false
  end.

(** [onClick] of the translate button:
    [currentUser && setIsTranslatorOpen(true)]. *)
Definition openTranslator (st : AppState) : AppState :=
  match currentUser st with
  | Some _ => setIsTranslatorOpen true st
  | None => st
  end.

(** [onClose] of the dialog. *)
Definition closeTranslator (st : AppState) : AppState :=
  setIsTranslatorOpen false st.

(** The effect on [currentUser], run with the values of the render
    [rendered] on the state [st]: [if (!currentUser) setIsTranslatorOpen(false)]. *)
Definition closeWithoutUser (rendered st : AppState) : AppState :=
  match currentUser rendered with
  | None => setIsTranslatorOpen false st
  | Some _ => st
  end.

(** The effect on [isTranslatorOpen], run with the values of the render
    [rendered] on the state [st]. *)
Definition resetWhenClosed (rendered st : AppState) : AppState :=
  if isTranslatorOpen rendered then st
  else
    match st with
    | Build_AppState il em sp ps wi ito _ _ _ cu al =>
        Build_AppState il em sp ps wi ito false "" "" cu al
    end.

(** The dependency [currentUser] differs between two renders.  Two user
    objects count as different: the effect does nothing for them. *)
Definition userChanged (before after : AppState) : bool :=
  match currentUser before, currentUser after with
  | None, None => false
  | _, _ => true
  end.

(** One round of effects after the render of [after], the render before
    having been the one of [before]: each effect runs when its dependency
    changed, with the values of the render, and their calls are applied
    together. *)
Definition effects (before after : AppState) : AppState :=
  let st1 := if userChanged before after then closeWithoutUser after after
             else after in
  if Bool.eqb (isTranslatorOpen before) (isTranslatorOpen after) then st1
  else resetWhenClosed after st1.

(** The rounds of effects that follow a change of state: the calls of the
    first round cause a second render and a second round. *)
Definition settle (before after : AppState) : AppState :=
  effects after (effects before after).

(** What a user or the identity provider can do to the mounted [App]. *)
Inductive action : Type :=
| AuthStateChanged (firebaseUser : option User)
| ClickTranslate
| CloseTranslator
| SubmitSearch (value : string) (net : network)
| SubmitTranslation (env : value) (inputValue : string) (net : network).

(** The state an action leaves when its handler has run.  The dialog is
    rendered, and can be submitted, only when it is open. *)
Definition perform (a : action) (st : AppState) : AppState :=
  match a with
  | AuthStateChanged firebaseUser => authStateChanged firebaseUser st
  | ClickTranslate => openTranslator st
  | CloseTranslator => closeTranslator st
  | SubmitSearch value net =>
      run st (Eff.trace (submitLocation (currentUser st) value net))
  | SubmitTranslation env inputValue net =>
      if isTranslatorOpen st then
        run st (Eff.trace (submitTranslation env (currentUser st) inputValue net))
      else st
  end.

Definition step (st : AppState) (a : action) : AppState :=
  settle st (perform a st).

(** The state after a sequence of actions on the freshly mounted [App]. *)
Definition stateAfter (actions : list action) : AppState :=
  fold_left step actions initialState.

(** *** Further inputs of the examples *)

(** Every service answers; the POI service knows one feature. *)
Definition oneFeature : network :=
  networkOf (inr (okResponse (VArr [ hanoi ])))
            (inr (okResponse currentWeather))
            (inr (okResponse (VObj [ ("elements", VArr [ museum ]) ])))
            (inl failedToFetch).


(** The geocoder knows no such place. *)
Definition nothingFound : network :=
  networkOf (inr (okResponse (VArr []))) (inl failedToFetch) (inl failedToFetch)
            (inl failedToFetch).

(** The translation service answers with a failure status and a body
    that has both a [detail] and an [error]. *)
Definition translationRefused : network :=
  networkOf (inl failedToFetch) (inl failedToFetch) (inl failedToFetch)
            (inr (statusResponse 503
                    (Json (VObj [ ("error", VStr "unavailable");
                                  ("detail", VStr "Model is loading") ])))).

(** A POI at a given distance. *)
Definition poiAt (id distance : R) : Poi.t :=
  {| Poi.id := VNum (Num id); Poi.name := VStr "Point of interest";
     Poi.category := "Other"; Poi.lat := Num 21; Poi.lon := Num 105;
     Poi.distance := Num distance; Poi.address := VNull |}.

(** A user signs in, opens the dialog and gets a translation. *)
Definition translated : AppState :=
  stateAfter [ AuthStateChanged (Some sampleUser); ClickTranslate;
               SubmitTranslation (VStr "https://api.example.com") "Hello" allUp ].

(** ** Properties *)

Lemma isEmpty_true (s : string) : Str.isEmpty s = true <-> s = "".
Proof. destruct s; simpl; split; congruence. Qed.

Lemma isEmpty_false (s : string) : Str.isEmpty s = false <-> s <> "".
Proof. destruct s; simpl; split; congruence. Qed.

Lemma orElse_not_empty (a b : string) : b <> "" -> Str.orElse a b <> "".
Proof.
  intros Hb. unfold Str.orElse.
  destruct (Str.isEmpty a) eqn:E; [ exact Hb | now apply isEmpty_false ].
Qed.

(** *** Local validation of a search *)

(** C10.  A search rejected by local validation (no signed-in user, or a
    query that trims to the empty string) makes exactly one call, to
    [setErrorMessage]: the place, the POI list, the weather snapshot and
    the loading flag keep their values, as do all the other cells;
    [setIsLoading] is never called and no request is sent. *)
Theorem search_rejected_locally
    (user : option User) (userQuery : string) (net : network) (st : AppState) :
  user = None \/ Str.trim userQuery = "" ->
  let tr := Eff.trace (handleSearch user userQuery net) in
  let st' := run st tr in
  (exists msg, msg <> "" /\ tr = [SetErrorMessage msg]) /\
  Eff.outcome (handleSearch user userQuery net) = inr tt /\
  (forall b, ~ In (SetIsLoading b) tr) /\
  networkCalls tr = 0 /\
  selectedPlace st' = selectedPlace st /\
  pois st' = pois st /\
  weatherInfo st' = weatherInfo st /\
  isLoading st' = isLoading st /\
  isTranslatorOpen st' = isTranslatorOpen st /\
  isTranslating st' = isTranslating st /\
  translationResult st' = translationResult st /\
  translationError st' = translationError st /\
  currentUser st' = currentUser st /\
  authLoading st' = authLoading st.
Proof.
  intros Hrej tr st'.
  assert (Htr : exists msg, msg <> "" /\ tr = [SetErrorMessage msg]
                            /\ Eff.outcome (handleSearch user userQuery net) = inr tt).
  { subst tr. unfold handleSearch.
    destruct user as [u | ].
    - destruct Hrej as [Hu | Hq]; [ discriminate | ].
      rewrite Hq. simpl. eexists. split; [ | split; reflexivity ]. discriminate.
    - simpl. eexists. split; [ | split; reflexivity ]. discriminate. }
  destruct Htr as (msg & Hmsg & Htr & Hout).
  subst st'. rewrite Htr.
  split; [ now exists msg | ].
  split; [ exact Hout | ].
  split.
  { intros b [Hb | []]. discriminate. }
  split; [ reflexivity | ].
  destruct st; simpl. repeat split.
Qed.

(** *** The translation client *)

Lemma translatedText_empty (data : value) :
  lacksTranslation data ->
  match getOpt data "translated_text" with
  | VStr s => Str.trim s
  | _ => ""
  end = "".
Proof.
  unfold lacksTranslation.
  destruct (getOpt data "translated_text"); auto.
Qed.

(** C9.  [handleTranslate] sends no request when there is no signed-in
    user, when the input trims to the empty string or when the endpoint is
    not configured: it only reports an error.  When the service answers
    with a success status and a JSON body whose [translated_text] is
    missing, is not a string or trims to the empty string, the handler
    ends with the error "Translation service did not return any
    translated text." and never publishes a translation. *)
Theorem translate_rejects_locally_and_on_empty_result
    (env : value) (user : option User) (englishText : string)
    (net : network) (st : AppState) :
  let m := handleTranslate env user englishText net in
  let st' := run st (Eff.trace m) in
  (user = None \/ Str.trim englishText = "" \/ TRANSLATION_ENDPOINT env = "" ->
   networkCalls (Eff.trace m) = 0 /\
   Eff.outcome m = inr tt /\
   translationError st' <> "" /\
   isTranslating st' = isTranslating st /\
   (forall s, In (SetTranslationResult s) (Eff.trace m) -> s = ""))
  /\
  (forall (r : response) (data : value),
   user <> None ->
   Str.trim englishText <> "" ->
   TRANSLATION_ENDPOINT env <> "" ->
   answer net (TranslateRequest (TRANSLATION_ENDPOINT env) (Str.trim englishText))
     = inr r ->
   ok r = true ->
   json r = inr data ->
   lacksTranslation data ->
   networkCalls (Eff.trace m) = 1 /\
   Eff.outcome m = inr tt /\
   translationError st'
     = "Translation service did not return any translated text." /\
   translationResult st' = "" /\
   isTranslating st' = false /\
   (forall s, In (SetTranslationResult s) (Eff.trace m) -> s = "")).
Proof.
  intros m st'. split.
  - intros Hrej.
    assert (Hcases :
      (exists msg, msg <> "" /\ m = ([SetTranslationError msg], inr tt)) \/
      (exists msg, msg <> "" /\
         m = ([SetTranslationError msg; SetTranslationResult ""], inr tt))).
    { subst m. unfold handleTranslate.
      destruct user as [u | ].
      - destruct (Str.isEmpty (Str.trim englishText)) eqn:Et.
        + right. eexists. split; [ | reflexivity ]. discriminate.
        + destruct (Str.isEmpty (TRANSLATION_ENDPOINT env)) eqn:Ee.
          * right. eexists. split; [ | reflexivity ]. discriminate.
          * apply isEmpty_false in Et, Ee.
            destruct Hrej as [H | [H | H]]; [ discriminate | | ]; contradiction.
      - left. eexists. split; [ | reflexivity ]. discriminate. }
    subst st'.
    destruct Hcases as [(msg & Hmsg & ->) | (msg & Hmsg & ->)];
      destruct st; simpl; repeat split; auto;
      intros s H; repeat (destruct H as [H | H]; try discriminate; try now inversion H).
  - intros r data Hu Ht He Hans Hok Hjson Hlack.
    assert (Hm : m = ([ SetIsTranslating true; SetTranslationError "";
                        SetTranslationResult "";
                        Fetch (TranslateRequest (TRANSLATION_ENDPOINT env)
                                                (Str.trim englishText));
                        SetTranslationError
                          "Translation service did not return any translated text.";
                        SetIsTranslating false ], inr tt)).
    { subst m. unfold handleTranslate.
      destruct user as [u | ]; [ | contradiction ].
      apply isEmpty_false in Ht, He. rewrite Ht, He.
      unfold translateBody, fetch. rewrite Hans.
      cbn [Eff.bind Eff.emit Eff.finally Eff.catch Eff.lift Eff.throw app negb].
      rewrite Hok. cbn [negb]. rewrite Hjson.
      rewrite (translatedText_empty data Hlack).
      reflexivity. }
    subst st'. rewrite Hm.
    destruct st; simpl; repeat split; auto.
    intros s H; repeat (destruct H as [H | H]; try discriminate; try now inversion H).
Qed.

(** *** Names and categories *)

(** C6.  On every tag mapping, [buildPoiLabel] returns the value of the
    first present field among name, name:vi, name:en, amenity, tourism,
    leisure, and "Point of interest" when none is present; the tags
    [{amenity: "cafe"}] give "cafe". *)
Theorem buildPoiLabel_first_present (fields : list (string * value)) :
  buildPoiLabel (VObj fields)
    = inr (match firstPresent (VObj fields) nameFields with
           | Some field => prop (VObj fields) field
           | None => VStr "Point of interest"
           end)
  /\ buildPoiLabel (VObj [ ("amenity", VStr "cafe") ]) = inr (VStr "cafe")
  /\ buildPoiLabel (VObj []) = inr (VStr "Point of interest").
Proof.
  split; [ | split; reflexivity ].
  unfold buildPoiLabel, orEmptyObject, get, bindResult, nameFields.
  cbn [isNullish firstPresent]. unfold present.
  destruct (truthy (prop (VObj fields) "name")); [ reflexivity | ].
  destruct (truthy (prop (VObj fields) "name:vi")); [ reflexivity | ].
  destruct (truthy (prop (VObj fields) "name:en")); [ reflexivity | ].
  destruct (truthy (prop (VObj fields) "amenity")); [ reflexivity | ].
  destruct (truthy (prop (VObj fields) "tourism")); [ reflexivity | ].
  destruct (truthy (prop (VObj fields) "leisure")); reflexivity.
Qed.



(** *** Numbers that are not finite *)

Lemma plus_NaN_r (a : number) : plus a NaN = NaN.
Proof. destruct a; reflexivity. Qed.

Lemma times_NaN_r (a : number) : times a NaN = NaN.
Proof. destruct a; reflexivity. Qed.

Lemma minus_not_finite (a b : number) :
  isNum a && isNum b = false -> isNum (minus a b) = false.
Proof.
  destruct a as [ | s | x ], b as [ | t | y ]; cbn;
    try reflexivity; try discriminate.
  destruct (Bool.eqb s t); reflexivity.
Qed.

Lemma toRad_not_finite (a : number) : isNum a = false -> isNum (toRad a) = false.
Proof.
  destruct a as [ | s | x ]; [ reflexivity | | discriminate ].
  intros _. unfold toRad, Math.PI. cbn [times].
  destruct (isZero Rtrigo1.PI); reflexivity.
Qed.

Lemma half_not_finite (a : number) :
  isNum a = false -> isNum (divide a (Num 2)) = false.
Proof. destruct a; [ reflexivity | reflexivity | discriminate ]. Qed.

Lemma sin_not_finite (a : number) : isNum a = false -> Math.sin a = NaN.
Proof. destruct a; [ reflexivity | reflexivity | discriminate ]. Qed.

Lemma cos_not_finite (a : number) : isNum a = false -> Math.cos a = NaN.
Proof. destruct a; [ reflexivity | reflexivity | discriminate ]. Qed.

(** An argument that is [NaN] or infinite makes the trigonometric
    functions, hence the distance, [NaN]. *)
Lemma haversineDistance_not_finite (lat1 lon1 lat2 lon2 : number) :
  (isNum lat1 && isNum lon1) && (isNum lat2 && isNum lon2) = false ->
  haversineDistance lat1 lon1 lat2 lon2 = NaN.
Proof.
  intros H. unfold haversineDistance. cbv zeta.
  match goal with
  | |- times _ (times _ (Math.atan2 (Math.sqrt ?a) _)) = _ =>
      assert (Ha : a = NaN); [ | rewrite Ha; reflexivity ]
  end.
  destruct (isNum lat1) eqn:E1.
  - destruct (isNum lat2) eqn:E2.
    + assert (Hlon : isNum lon2 && isNum lon1 = false)
        by (destruct (isNum lon1), (isNum lon2); simpl in *; congruence).
      rewrite (sin_not_finite (divide (toRad (minus lon2 lon1)) (Num 2))).
      * cbn [squared times]. now rewrite times_NaN_r, plus_NaN_r.
      * now apply half_not_finite, toRad_not_finite, minus_not_finite.
    + rewrite (cos_not_finite (toRad lat2)) by now apply toRad_not_finite.
      now rewrite (times_NaN_r (Math.cos (toRad lat1))), plus_NaN_r.
  - rewrite (cos_not_finite (toRad lat1)) by now apply toRad_not_finite.
    cbn [times]. now rewrite plus_NaN_r.
Qed.

(** *** Normalization *)

Lemma not_number_left {A} (v w : value) (x : number -> number -> A) (y : A) :
  isNumber v = false ->
  match v, w with VNum a, VNum b => x a b | _, _ => y end = y.
Proof. destruct v; simpl; intros H; try discriminate; destruct w; reflexivity. Qed.

Lemma not_number_right {A} (v w : value) (x : number -> number -> A) (y : A) :
  isNumber w = false ->
  match v, w with VNum a, VNum b => x a b | _, _ => y end = y.
Proof. destruct w; simpl; intros H; try discriminate; destruct v; reflexivity. Qed.

Lemma resultLat_unresolved (element : value) :
  isNumber (resultLat element) = negb (unresolved element "lat").
Proof.
  unfold resultLat, unresolved.
  destruct (isNumber (prop element "lat")) eqn:E; cbn [negb andb];
    [ exact E | now rewrite negb_involutive ].
Qed.

Lemma resultLon_unresolved (element : value) :
  isNumber (resultLon element) = negb (unresolved element "lon").
Proof.
  unfold resultLon, unresolved.
  destruct (isNumber (prop element "lon")) eqn:E; cbn [negb andb];
    [ exact E | now rewrite negb_involutive ].
Qed.

Lemma formatElement_dropped (latitude longitude : number) (element : value) :
  isNullish element = false ->
  unresolved element "lat" || unresolved element "lon" = true ->
  formatElement latitude longitude element = inr None.
Proof.
  unfold formatElement. intros -> H.
  apply orb_true_iff in H. destruct H as [ Hlat | Hlon ].
  - apply not_number_left. rewrite resultLat_unresolved, Hlat. reflexivity.
  - apply not_number_right. rewrite resultLon_unresolved, Hlon. reflexivity.
Qed.

Lemma formatElement_kept (latitude longitude : number) (element : value) (p : Poi.t) :
  formatElement latitude longitude element = inr (Some p) ->
  locatedBy element p /\
  Poi.distance p
    = haversineDistance latitude longitude (Poi.lat p) (Poi.lon p).
Proof.
  unfold formatElement, locatedBy.
  destruct (isNullish element); [ discriminate | ].
  destruct (resultLat element) as [ | | | rlat | | | ]; try discriminate;
    try (destruct (resultLon element); discriminate).
  destruct (resultLon element) as [ | | | rlon | | | ]; try discriminate.
  destruct (buildPoiLabel _) as [ e | name ]; [ discriminate | ].
  destruct (buildCategory _) as [ e | category ]; [ discriminate | ].
  cbn [bindResult].
  destruct (get _ "addr:street") as [ e | street ]; [ discriminate | ].
  destruct (get _ "addr:full") as [ e | full ]; [ discriminate | ].
  cbn [bindResult]. intros H. inversion H; subst; clear H. simpl. auto.
Qed.

Lemma formatted_kept (latitude longitude : number) (elements : list value) :
  formatted latitude longitude elements
    = bindResult (kept latitude longitude elements)
                 (fun l => inr (firstn 5 (sort byDistance l))).
Proof.
  unfold formatted, kept.
  destruct (mapResult _ elements); reflexivity.
Qed.

Lemma kept_cons (latitude longitude : number) (e : value) (l : list value) :
  kept latitude longitude (e :: l)
    = bindResult (formatElement latitude longitude e) (fun y =>
      bindResult (kept latitude longitude l) (fun ys =>
      inr (match y with Some p => p :: ys | None => ys end))).
Proof.
  unfold kept. cbn [mapResult].
  destruct (formatElement latitude longitude e) as [ x | [ p | ] ];
    cbn [bindResult]; try reflexivity;
    destruct (mapResult _ l); reflexivity.
Qed.

Lemma kept_without (latitude longitude : number) (element : value)
    (before after : list value) :
  formatElement latitude longitude element = inr None ->
  kept latitude longitude (before ++ element :: after)
    = kept latitude longitude (before ++ after).
Proof.
  intros Hnone.
  induction before as [ | e before IH ]; cbn [app].
  - rewrite kept_cons, Hnone. cbn [bindResult].
    destruct (kept latitude longitude after); reflexivity.
  - rewrite !kept_cons, IH. reflexivity.
Qed.

Lemma kept_located (latitude longitude : number) (elements : list value) :
  forall l, kept latitude longitude elements = inr l ->
  Forall (fun p => exists e, In e elements /\ locatedBy e p /\
                   Poi.distance p = haversineDistance latitude longitude
                                      (Poi.lat p) (Poi.lon p)) l.
Proof.
  induction elements as [ | e elements IH ]; intros l.
  - unfold kept. cbn. intros H. inversion H. constructor.
  - rewrite kept_cons.
    destruct (formatElement latitude longitude e) as [ x | y ] eqn:He;
      [ discriminate | ].
    cbn [bindResult].
    destruct (kept latitude longitude elements) as [ x | ys ];
      [ discriminate | ].
    cbn [bindResult]. intros H. inversion H; subst; clear H.
    assert (Hys : Forall (fun p => exists e0, In e0 (e :: elements) /\ locatedBy e0 p /\
                   Poi.distance p = haversineDistance latitude longitude
                                      (Poi.lat p) (Poi.lon p)) ys).
    { eapply Forall_impl; [ | apply (IH ys eq_refl) ].
      intros p (e0 & Hin & Hloc). exists e0. split; [ now right | exact Hloc ]. }
    destruct y as [ p | ]; [ | exact Hys ].
    constructor; [ | exact Hys ].
    exists e. split; [ now left | ]. now apply formatElement_kept.
Qed.

Lemma insert_In (compare : Poi.t -> Poi.t -> number) (x y : Poi.t) (l : list Poi.t) :
  In y (insert compare x l) <-> y = x \/ In y l.
Proof.
  induction l as [ | z l IH ]; simpl.
  - intuition.
  - destruct (isPositive (compare x z)); simpl; rewrite ?IH; intuition.
Qed.

Lemma sort_In (compare : Poi.t -> Poi.t -> number) (y : Poi.t) (l : list Poi.t) :
  In y (sort compare l) <-> In y l.
Proof.
  induction l as [ | z l IH ]; simpl; [ tauto | ].
  rewrite insert_In, IH. intuition.
Qed.

Lemma firstn_In (n : nat) (y : Poi.t) (l : list Poi.t) :
  In y (firstn n l) -> In y l.
Proof.
  revert l. induction n as [ | n IH ]; intros [ | z l ]; simpl; try tauto.
  intros [H | H]; auto.
Qed.

Lemma formatted_subset (latitude longitude : number) (elements : list value)
    (l : list Poi.t) :
  formatted latitude longitude elements = inr l ->
  exists l0, kept latitude longitude elements = inr l0 /\
             l = firstn 5 (sort byDistance l0) /\
             forall p, In p l -> In p l0.
Proof.
  rewrite formatted_kept.
  destruct (kept latitude longitude elements) as [ x | l0 ]; [ discriminate | ].
  cbn [bindResult]. intros H.
  assert (Hl : l = firstn 5 (sort byDistance l0)) by congruence.
  exists l0. split; [ reflexivity | split; [ exact Hl | ] ].
  intros p Hp. rewrite Hl in Hp.
  apply (firstn_In 5) in Hp. now apply sort_In in Hp.
Qed.

(** *** Ranking *)

Lemma Forall_sort (P : Poi.t -> Prop) (compare : Poi.t -> Poi.t -> number)
    (l : list Poi.t) :
  Forall P l -> Forall P (sort compare l).
Proof.
  rewrite !Forall_forall. intros H p Hp. apply H. now apply sort_In in Hp.
Qed.

Lemma Forall_firstn (P : Poi.t -> Prop) (n : nat) (l : list Poi.t) :
  Forall P l -> Forall P (firstn n l).
Proof.
  rewrite !Forall_forall. intros H p Hp. apply H. now apply firstn_In in Hp.
Qed.




(** Without a search center every distance is [NaN]. *)
Lemma kept_without_center (latitude longitude : number) (elements : list value)
    (l : list Poi.t) :
  isNum latitude && isNum longitude = false ->
  kept latitude longitude elements = inr l ->
  Forall (fun p => Poi.distance p = NaN) l.
Proof.
  intros Hcenter Hkept. pose proof (kept_located _ _ _ _ Hkept) as Hloc.
  eapply Forall_impl; [ | exact Hloc ].
  intros p (e & _ & _ & ->).
  apply haversineDistance_not_finite. now rewrite Hcenter.
Qed.

Lemma formatted_capped (latitude longitude : number) (elements : list value)
    (result : list Poi.t) :
  formatted latitude longitude elements = inr result ->
  List.length result <= 5.
Proof.
  intros Hres.
  destruct (formatted_subset _ _ _ _ Hres) as (l0 & _ & -> & _).
  apply firstn_le_length.
Qed.

Lemma buildPoiLabel_returns (tags : value) :
  isNullish tags = false -> exists v, buildPoiLabel (orEmptyObject tags) = inr v.
Proof.
  intros Htags.
  assert (H : isNullish (orEmptyObject (orEmptyObject tags)) = false)
    by (destruct tags; simpl in *; congruence).
  unfold buildPoiLabel, get. rewrite H. cbn [bindResult].
  repeat match goal with
         | |- context [ if truthy ?v then _ else _ ] =>
             destruct (truthy v); [ eexists; reflexivity | ]
         end.
  eexists; reflexivity.
Qed.

Lemma formatElement_returns (latitude longitude : number) (element : value) :
  wellFormedFeature element = true ->
  exists y, formatElement latitude longitude element = inr y.
Proof.
  unfold wellFormedFeature. intros H. apply andb_true_iff in H.
  destruct H as [Hobj Htags]. apply negb_true_iff in Hobj.
  unfold formatElement. rewrite Hobj.
  destruct (resultLat element); try (eexists; reflexivity).
  destruct (resultLon element); try (eexists; reflexivity).
  set (tags := prop element "tags") in *.
  assert (Hn : isNullish (orEmptyObject tags) = false)
    by (destruct tags; simpl in *; congruence).
  assert (Hl : exists v, buildPoiLabel (orEmptyObject tags) = inr v).
  { destruct tags; try discriminate;
      try (apply buildPoiLabel_returns; reflexivity).
    exact (buildPoiLabel_returns (VObj []) eq_refl). }
  destruct Hl as (name & ->). cbn [bindResult].
  unfold buildCategory.
  assert (Hn2 : isNullish (orEmptyObject (orEmptyObject tags)) = false)
    by (destruct tags; simpl in *; congruence).
  rewrite Hn2. unfold get. rewrite Hn.
  destruct (find _ candidates); cbn [bindResult]; eexists; reflexivity.
Qed.


(** *** The search handler, step by step *)

Lemma run_app (st : AppState) (a b : list event) :
  run st (a ++ b) = run (run st a) b.
Proof. apply fold_left_app. Qed.

Lemma run_keepsSession (tr : list event) (st : AppState) :
  forallb keepsSession tr = true ->
  isLoading (run st tr) = isLoading st /\
  errorMessage (run st tr) = errorMessage st /\
  pois (run st tr) = pois st /\
  weatherInfo (run st tr) = weatherInfo st.
Proof.
  revert st. induction tr as [ | ev tr IH ]; intros st; cbn [forallb].
  - intros _. repeat split.
  - intros H. apply andb_true_iff in H. destruct H as [Hev Htr].
    change (run st (ev :: tr)) with (run (apply st ev) tr).
    destruct (IH (apply st ev) Htr) as (H1 & H2 & H3 & H4).
    rewrite H1, H2, H3, H4.
    destruct ev; try discriminate; destruct st; repeat split.
Qed.


Lemma publishWeather_cases (weatherResponse : response) :
  (exists w, publishWeather weatherResponse = ([SetWeatherInfo w], inr tt)) \/
  (exists e, publishWeather weatherResponse = ([], inl e)).
Proof.
  unfold publishWeather.
  destruct (ok weatherResponse).
  - destruct (json weatherResponse) as [ e | weatherJson ]; cbn.
    + right. now exists e.
    + left. destruct (truthy (getOpt weatherJson "current_weather"));
        eexists; reflexivity.
  - left. eexists; reflexivity.
Qed.

Lemma publishPois_cases (latitude longitude : number) (poiResponse : response) :
  (exists e, publishPois latitude longitude poiResponse = ([], inl e)) \/
  (exists poiData result,
     json poiResponse = inr poiData /\
     formatted latitude longitude (elementsOf poiData) = inr result /\
     publishPois latitude longitude poiResponse
     = ((if Nat.eqb (List.length result) 0
         then [SetErrorMessage "No notable places found within 2km of this location."]
         else []) ++ [SetPois result], inr tt)).
Proof.
  unfold publishPois.
  destruct (json poiResponse) as [ e | poiData ]; cbn;
    [ left; now exists e | ].
  unfold get. destruct (isNullish poiData) eqn:Hnull; cbn;
    [ left; eexists; reflexivity | ].
  fold (elementsOf poiData).
  destruct (formatted latitude longitude (elementsOf poiData)) as [ e | result ] eqn:Hf;
    cbn; [ left; now exists e | ].
  right. exists poiData, result. split; [ reflexivity | split; [ exact Hf | ] ].
  destruct (Nat.eqb (List.length result) 0); reflexivity.
Qed.

(** What [searchAround] does on a first match that is an object: it stores
    the place and sends both requests; then it fails before the weather
    is published, or fails while the POI body is read and normalized, or
    publishes the weather and the POIs. *)
Lemma searchAround_cases (net : network) (first : value) :
  isNullish first = false ->
  (exists e, searchAround net first = (fanOut first, inl e)) \/
  (exists e w weatherResponse poiResponse,
     answer net (WeatherRequest (Place.lat (placeOf first)) (Place.lon (placeOf first)))
       = inr weatherResponse /\
     publishWeather weatherResponse = ([SetWeatherInfo w], inr tt) /\
     answer net (OverpassRequest (Place.lat (placeOf first)) (Place.lon (placeOf first)))
       = inr poiResponse /\
     ok poiResponse = true /\
     Eff.outcome (publishPois (Place.lat (placeOf first)) (Place.lon (placeOf first))
                              poiResponse) = inl e /\
     searchAround net first = (fanOut first ++ [SetWeatherInfo w], inl e)) \/
  (exists w poiData result,
     formatted (Place.lat (placeOf first)) (Place.lon (placeOf first))
               (elementsOf poiData) = inr result /\
     searchAround net first
     = (fanOut first ++ [SetWeatherInfo w] ++ publication result, inr tt)).
Proof.
  intros Hobj. unfold searchAround. rewrite Hobj.
  unfold fetchBoth. fold (placeOf first).
  cbn [Place.lat Place.lon placeOf].
  set (latitude := parseFloat (prop first "lat")).
  set (longitude := parseFloat (prop first "lon")).
  assert (Hfan : fanOut first
                 = [ SetSelectedPlace (Some (placeOf first));
                     Fetch (WeatherRequest latitude longitude);
                     Fetch (OverpassRequest latitude longitude) ]) by reflexivity.
  destruct (answer net (WeatherRequest latitude longitude))
    as [ ew | weatherResponse ] eqn:Hwa;
    destruct (answer net (OverpassRequest latitude longitude))
      as [ ep | poiResponse ] eqn:Hpa;
    cbn [Eff.bind Eff.emit app]; try (left; eexists; rewrite Hfan; reflexivity).
  destruct (ok poiResponse) eqn:Hok; cbn [negb];
    [ | left; eexists; rewrite Hfan; reflexivity ].
  destruct (publishWeather_cases weatherResponse) as [ (w & Hw) | (e & Hw) ];
    rewrite Hw; cbn [Eff.bind app];
    [ | left; exists e; rewrite Hfan; reflexivity ].
  right.
  destruct (publishPois_cases latitude longitude poiResponse)
    as [ (e & Hp) | (poiData & result & _ & Hf & Hp) ]; rewrite Hp.
  - left. exists e, w, weatherResponse, poiResponse. rewrite Hp.
    split; [ reflexivity | split; [ exact Hw | split; [ reflexivity | ] ] ].
    split; [ exact Hok | split; [ reflexivity | ] ].
    rewrite Hfan. reflexivity.
  - right. exists w, poiData, result. split; [ exact Hf | ].
    rewrite Hfan. reflexivity.
Qed.

Lemma handleSearch_validated (u : User) (userQuery : string) (net : network) :
  Str.trim userQuery <> "" ->
  handleSearch (Some u) userQuery net
  = (opening ++ Eff.trace (searchBody net (Str.trim userQuery))
             ++ closing (Eff.outcome (searchBody net (Str.trim userQuery))),
     inr tt).
Proof.
  intros Hq. apply isEmpty_false in Hq.
  unfold handleSearch. rewrite Hq.
  destruct (searchBody net (Str.trim userQuery)) as [ tr [ e | [] ] ];
    cbn; rewrite <- ?app_assoc, ?app_nil_r; reflexivity.
Qed.

(** [handleSearch] returns: no exception leaves it. *)
Lemma handleSearch_returns (user : option User) (userQuery : string) (net : network) :
  Eff.outcome (handleSearch user userQuery net) = inr tt.
Proof.
  destruct user as [ u | ]; [ | reflexivity ].
  destruct (Str.isEmpty (Str.trim userQuery)) eqn:Hq.
  - unfold handleSearch. rewrite Hq. reflexivity.
  - apply isEmpty_false in Hq. now rewrite handleSearch_validated.
Qed.

Lemma searchBody_failure (net : network) (trimmed : string) (e : exn) :
  Eff.outcome (searchBody net trimmed) = inl e ->
  forallb keepsSession (Eff.trace (searchBody net trimmed)) = true \/
  (exists tr w, Eff.trace (searchBody net trimmed) = tr ++ [SetWeatherInfo w] /\
                forallb keepsSession tr = true /\
                failedOnPois net trimmed e w).
Proof.
  unfold searchBody, fetch.
  destruct (answer net (GeocodeRequest trimmed)) as [ eg | geocodeResponse ] eqn:Hans;
    [ intros _; left; reflexivity | ].
  cbn [Eff.bind].
  destruct (ok geocodeResponse) eqn:Hgok; cbn [negb];
    [ | intros _; left; reflexivity ].
  destruct (json geocodeResponse) as [ ej | geocodeData ] eqn:Hjson;
    [ intros _; left; reflexivity | ].
  cbn [Eff.lift Eff.bind app].
  destruct geocodeData as [ | | | | | [ | first rest ] | ];
    try (intros _; left; reflexivity).
  destruct (isNullish first) eqn:Hobj.
  - unfold searchAround. rewrite Hobj. intros _. left. reflexivity.
  - destruct (searchAround_cases net first Hobj)
      as [ (e' & ->)
         | [ (e' & w & wr & pr & Hwa & Hw & Hpa & Hok & Hp & ->) | (w & d & l & _ & ->) ] ];
      cbn [Eff.outcome Eff.trace fst snd app].
    + intros _. left. reflexivity.
    + intros [= <-]. right.
      exists (Fetch (GeocodeRequest trimmed) :: fanOut first), w.
      split; [ reflexivity | split; [ reflexivity | ] ].
      exists geocodeResponse, first, rest, wr, pr. auto 10.
    + discriminate.
Qed.

Lemma run_opening (st : AppState) :
  isLoading (run st opening) = true /\
  errorMessage (run st opening) = "" /\
  pois (run st opening) = [] /\
  weatherInfo (run st opening) = None /\
  selectedPlace (run st opening) = selectedPlace st.
Proof. destruct st; repeat split. Qed.

Lemma run_closing_failure (st : AppState) (e : exn) :
  let st' := run st (closing (inl e)) in
  isLoading st' = false /\
  errorMessage st'
    = Str.orElse (message e) "Something went wrong, please try again." /\
  pois st' = pois st /\
  weatherInfo st' = weatherInfo st /\
  selectedPlace st' = selectedPlace st.
Proof. destruct st; repeat split. Qed.

(** X32.  When the [try] block of a search throws, the handler ends with
    the error message set from the exception, the POI list empty and the
    loading flag cleared.  The weather snapshot is absent too, unless the
    exception came from reading and normalizing the body of a POI
    response that had a success status: that step runs after the weather
    has been published, and the snapshot in the state is then the one
    this search made of the weather response for the place of the
    geocoder's first match.  The weather of an earlier search never
    stays. *)
Theorem failed_search_state
    (u : User) (userQuery : string) (net : network) (st : AppState) (e : exn) :
  Str.trim userQuery <> "" ->
  Eff.outcome (searchBody net (Str.trim userQuery)) = inl e ->
  let st' := run st (Eff.trace (handleSearch (Some u) userQuery net)) in
  errorMessage st'
    = Str.orElse (message e) "Something went wrong, please try again." /\
  errorMessage st' <> "" /\
  pois st' = [] /\
  isLoading st' = false /\
  (weatherInfo st' = None \/
   failedOnPois net (Str.trim userQuery) e (weatherInfo st')).
Proof.
  intros Hq Hfail st'. subst st'.
  rewrite (handleSearch_validated u userQuery net Hq).
  cbn [Eff.trace fst]. rewrite Hfail, !run_app.
  set (st1 := run st opening).
  set (st2 := run st1 (Eff.trace (searchBody net (Str.trim userQuery)))).
  destruct (run_opening st) as (_ & _ & Hp1 & Hw1 & _). fold st1 in Hp1, Hw1.
  destruct (run_closing_failure st2 e) as (Hl & He & Hp & Hw & _).
  cbv zeta in Hl, He, Hp, Hw.
  rewrite He, Hp, Hl, Hw.
  split; [ reflexivity | ].
  split; [ apply orElse_not_empty; discriminate | ].
  assert (Hst2 : pois st2 = [] /\
                 (weatherInfo st2 = None \/
                  failedOnPois net (Str.trim userQuery) e (weatherInfo st2))).
  { subst st2.
    destruct (searchBody_failure net (Str.trim userQuery) e Hfail)
      as [ Hquiet | (tr & w & -> & Hquiet & Hlate) ].
    - destruct (run_keepsSession _ st1 Hquiet) as (_ & _ & Hp2 & Hw2).
      rewrite Hp2, Hw2. auto.
    - rewrite run_app.
      destruct (run_keepsSession _ st1 Hquiet) as (_ & _ & Hp2 & _).
      assert (Hw2 : weatherInfo (run (run st1 tr) [SetWeatherInfo w]) = w)
        by (destruct (run st1 tr); reflexivity).
      split.
      + destruct (run st1 tr); simpl in *. congruence.
      + right. now rewrite Hw2. }
  destruct Hst2 as [Hp2 Hw2]. auto.
Qed.







(** Every list a search hands to [setPois] is empty or the result of the
    chain, so it holds at most 5 POIs. *)
Lemma searchBody_publishes (net : network) (trimmed : string) (l : list Poi.t) :
  In (SetPois l) (Eff.trace (searchBody net trimmed)) ->
  exists latitude longitude elements,
    formatted latitude longitude elements = inr l.
Proof.
  unfold searchBody, fetch.
  destruct (answer net (GeocodeRequest trimmed)) as [ eg | geocodeResponse ];
    [ intros [ H | [] ]; discriminate | ].
  cbn [Eff.bind].
  destruct (ok geocodeResponse); cbn [negb];
    [ | intros [ H | [] ]; discriminate ].
  destruct (json geocodeResponse) as [ ej | geocodeData ];
    [ intros [ H | [] ]; discriminate | ].
  cbn [Eff.lift Eff.bind app].
  destruct geocodeData as [ | | | | | [ | first rest ] | ];
    try (intros [ H | [] ]; discriminate).
  destruct (isNullish first) eqn:Hobj.
  - unfold searchAround. rewrite Hobj. intros [ H | [] ]; discriminate.
  - destruct (searchAround_cases net first Hobj)
      as [ (e & ->) | [ (e & w & wr & pr & _ & _ & _ & _ & _ & ->) | (w & d & r & Hf & ->) ] ];
      cbn [Eff.trace fst app fanOut]; intros H;
      repeat (destruct H as [ H | H ]; [ discriminate | ]);
      try contradiction.
    unfold publication in H. apply in_app_or in H.
    destruct H as [ H | [ H | [] ] ].
    + destruct (Nat.eqb _ 0); [ destruct H as [ H | [] ]; discriminate | destruct H ].
    + injection H as <-. eauto.
Qed.

Lemma handleSearch_publishes
    (user : option User) (userQuery : string) (net : network) (l : list Poi.t) :
  In (SetPois l) (Eff.trace (handleSearch user userQuery net)) ->
  List.length l <= 5.
Proof.
  destruct user as [ u | ]; [ | intros [ H | [] ]; discriminate ].
  destruct (Str.isEmpty (Str.trim userQuery)) eqn:Hq.
  - unfold handleSearch. rewrite Hq. intros [ H | [] ]; discriminate.
  - apply isEmpty_false in Hq. rewrite (handleSearch_validated u _ net Hq).
    cbn [Eff.trace fst]. intros H.
    apply in_app_or in H. destruct H as [ H | H ].
    + repeat (destruct H as [ H | H ]; try discriminate); try contradiction.
      injection H as <-. simpl; lia.
    + apply in_app_or in H. destruct H as [ H | H ].
      * destruct (searchBody_publishes _ _ _ H) as (la & lo & els & Hf).
        exact (formatted_capped _ _ _ _ Hf).
      * unfold closing in H. apply in_app_or in H.
        destruct H as [ H | [ H | [] ] ]; [ | discriminate ].
        destruct (Eff.outcome _); [ destruct H as [ H | [] ]; discriminate | destruct H ].
Qed.

(** *** Weather is optional, POIs are not *)


(** A POI response with a failure status fails the search. *)
Lemma poi_failure_status_fails (net : network) (first : value)
    (weatherResponse poiResponse : response) :
  isNullish first = false ->
  answer net (WeatherRequest (Place.lat (placeOf first)) (Place.lon (placeOf first)))
    = inr weatherResponse ->
  answer net (OverpassRequest (Place.lat (placeOf first)) (Place.lon (placeOf first)))
    = inr poiResponse ->
  ok poiResponse = false ->
  searchAround net first
  = (fanOut first, inl (Error "Unable to fetch nearby points of interest.")).
Proof.
  intros Hobj Hw Hp Hok. unfold searchAround, fetchBoth. rewrite Hobj.
  fold (placeOf first).
  change (parseFloat (prop first "lat")) with (Place.lat (placeOf first)).
  change (parseFloat (prop first "lon")) with (Place.lon (placeOf first)).
  rewrite Hw, Hp. cbn [Eff.bind Eff.emit app]. rewrite Hok. reflexivity.
Qed.

(** A rejected weather request fails the search, whatever the POI
    service answers. *)
Lemma weather_rejection_fails (net : network) (first : value)
    (e : exn) (poiResponse : response) :
  isNullish first = false ->
  answer net (WeatherRequest (Place.lat (placeOf first)) (Place.lon (placeOf first)))
    = inl e ->
  answer net (OverpassRequest (Place.lat (placeOf first)) (Place.lon (placeOf first)))
    = inr poiResponse ->
  searchAround net first = (fanOut first, inl e).
Proof.
  intros Hobj Hw Hp. unfold searchAround, fetchBoth. rewrite Hobj.
  fold (placeOf first).
  change (parseFloat (prop first "lat")) with (Place.lat (placeOf first)).
  change (parseFloat (prop first "lon")) with (Place.lon (placeOf first)).
  rewrite Hw, Hp. reflexivity.
Qed.

(** ** Further properties of the search handler *)

(** The shape of the [try] block: the geocoding step fails after one
    request, or a place is stored and both requests are sent, after which
    the block fails early, fails on the POI body, or publishes. *)
Lemma searchBody_shape (net : network) (trimmed : string) :
  (exists e, searchBody net trimmed = ([Fetch (GeocodeRequest trimmed)], inl e)) \/
  (exists first, isNullish first = false /\
     ((exists e, searchBody net trimmed
                 = (Fetch (GeocodeRequest trimmed) :: fanOut first, inl e)) \/
      (exists e w, searchBody net trimmed
                   = (Fetch (GeocodeRequest trimmed) :: fanOut first
                        ++ [SetWeatherInfo w], inl e)) \/
      (exists w poiData result,
         formatted (Place.lat (placeOf first)) (Place.lon (placeOf first))
                   (elementsOf poiData) = inr result /\
         searchBody net trimmed
         = (Fetch (GeocodeRequest trimmed) :: fanOut first
              ++ [SetWeatherInfo w] ++ publication result, inr tt)))).
Proof.
  unfold searchBody, fetch.
  destruct (answer net (GeocodeRequest trimmed)) as [ eg | geocodeResponse ];
    [ left; eexists; reflexivity | ].
  cbn [Eff.bind].
  destruct (ok geocodeResponse); cbn [negb]; [ | left; eexists; reflexivity ].
  destruct (json geocodeResponse) as [ ej | geocodeData ];
    [ left; eexists; reflexivity | ].
  cbn [Eff.lift Eff.bind app].
  destruct geocodeData as [ | | | | | [ | first rest ] | ];
    try (left; eexists; reflexivity).
  destruct (isNullish first) eqn:Hobj.
  - unfold searchAround. rewrite Hobj. left. eexists; reflexivity.
  - right. exists first. split; [ exact Hobj | ].
    destruct (searchAround_cases net first Hobj)
      as [ (e & ->)
         | [ (e & w & wr & pr & _ & _ & _ & _ & _ & ->) | (w & d & l & Hf & ->) ] ].
    + left. exists e. reflexivity.
    + right. left. exists e, w. reflexivity.
    + right. right. exists w, d, l. split; [ exact Hf | reflexivity ].
Qed.

Lemma publication_message (result : list Poi.t) :
  publication result
  = match result with
    | [] => [ SetErrorMessage (resultMessage result); SetPois result ]
    | _ :: _ => [ SetPois result ]
    end.
Proof. destruct result; reflexivity. Qed.

Lemma orElse_isEmpty (a : string) :
  Str.isEmpty (Str.orElse a "Something went wrong, please try again.") = false.
Proof. apply isEmpty_false, orElse_not_empty. discriminate. Qed.

(** The four shapes of a validated search, with the trace written out. *)
Ltac search_shapes net q :=
  let e := fresh "e" in
  let w := fresh "w" in
  let first := fresh "first" in
  let Hobj := fresh "Hobj" in
  let Hf := fresh "Hf" in
  let Hbody := fresh "Hbody" in
  let poiData := fresh "poiData" in
  let result := fresh "result" in
  destruct (searchBody_shape net (Str.trim q))
    as [ (e & Hbody)
       | (first & Hobj &
          [ (e & Hbody)
          | [ (e & w & Hbody) | (w & poiData & result & Hf & Hbody) ] ]) ];
  rewrite Hbody; cbn [Eff.trace Eff.outcome fst snd].

(** The published list is empty or not. *)
Ltac split_result :=
  rewrite ?publication_message;
  try match goal with
      | H : formatted _ _ _ = inr ?l |- _ => is_var l; destruct l
      end.

(** X1.  Every search that passes validation calls [setIsLoading] twice, with
    [true] and then with [false], ends with the loading flag down, and
    returns: no exception leaves the handler, whatever the services
    answer. *)
Theorem validated_search_ends_idle
    (u : User) (userQuery : string) (net : network) (st : AppState) :
  Str.trim userQuery <> "" ->
  let m := handleSearch (Some u) userQuery net in
  Eff.outcome m = inr tt /\
  loadingCalls (Eff.trace m) = [ true; false ] /\
  isLoading (run st (Eff.trace m)) = false.
Proof.
  intros Hq m. subst m.
  split; [ apply handleSearch_returns | ].
  rewrite (handleSearch_validated u userQuery net Hq). cbn [Eff.trace fst].
  search_shapes net userQuery; split_result; destruct st; split; reflexivity.
Qed.

(** X2.  A validated search sends the geocoding request and nothing else, and
    then leaves the place as it was; or it sends exactly three requests,
    the weather and the POI request being made for the place it stores. *)
Theorem search_requests
    (u : User) (userQuery : string) (net : network) (st : AppState) :
  Str.trim userQuery <> "" ->
  let tr := Eff.trace (handleSearch (Some u) userQuery net) in
  (requests tr = [ GeocodeRequest (Str.trim userQuery) ] /\
   selectedPlace (run st tr) = selectedPlace st)
  \/
  (exists place,
     requests tr = [ GeocodeRequest (Str.trim userQuery);
                     WeatherRequest (Place.lat place) (Place.lon place);
                     OverpassRequest (Place.lat place) (Place.lon place) ] /\
     selectedPlace (run st tr) = Some place).
Proof.
  intros Hq tr. subst tr.
  rewrite (handleSearch_validated u userQuery net Hq). cbn [Eff.trace fst].
  search_shapes net userQuery.
  - left. destruct st; split; reflexivity.
  - right. exists (placeOf first). destruct st; split; reflexivity.
  - right. exists (placeOf first). destruct st; split; reflexivity.
  - right. exists (placeOf first). split_result; destruct st; split; reflexivity.
Qed.

(** X3.  When the geocoder answers with a failure status, or with a body that
    is not a non-empty array, the search stops after that one request: the
    place of the earlier search stays, the POI list is empty, the weather
    absent, and the message tells which of the two happened. *)
Theorem geocoder_failure_keeps_place
    (u : User) (userQuery : string) (net : network) (st : AppState)
    (geocodeResponse : response) (msg : string) :
  Str.trim userQuery <> "" ->
  answer net (GeocodeRequest (Str.trim userQuery)) = inr geocodeResponse ->
  (ok geocodeResponse = false /\
   msg = "Unable to locate the place, please try again.")
  \/ (ok geocodeResponse = true /\
      (exists data, json geocodeResponse = inr data /\
                    forall first rest, data <> VArr (first :: rest)) /\
      msg = "No matching location found in Vietnam.") ->
  let tr := Eff.trace (handleSearch (Some u) userQuery net) in
  let st' := run st tr in
  requests tr = [ GeocodeRequest (Str.trim userQuery) ] /\
  errorMessage st' = msg /\
  selectedPlace st' = selectedPlace st /\
  pois st' = [] /\
  weatherInfo st' = None /\
  isLoading st' = false.
Proof.
  intros Hq Hans Hcase tr st'. subst st' tr.
  rewrite (handleSearch_validated u userQuery net Hq). cbn [Eff.trace fst].
  assert (Hbody : searchBody net (Str.trim userQuery)
                  = ([Fetch (GeocodeRequest (Str.trim userQuery))], inl (Error msg))).
  { unfold searchBody, fetch. rewrite Hans. cbn [Eff.bind].
    destruct Hcase as [ (Hok & ->) | (Hok & (data & Hjson & Hshape) & ->) ];
      rewrite Hok; cbn [negb]; [ reflexivity | ].
    rewrite Hjson. cbn [Eff.lift Eff.bind app].
    destruct data as [ | | | | | [ | first rest ] | ]; try reflexivity.
    exfalso. now apply (Hshape first rest). }
  rewrite Hbody. cbn [Eff.trace Eff.outcome fst snd]. unfold closing. cbn [message].
  assert (Hmsg : Str.orElse msg "Something went wrong, please try again." = msg).
  { destruct Hcase as [ (_ & ->) | (_ & _ & ->) ]; reflexivity. }
  rewrite Hmsg. destruct st; repeat split.
Qed.

(** What a [try] block that completes has done: it took the geocoder's
    first match, got both answers for its place, published the weather
    read from the one and the result of the chain on the elements of the
    other. *)
Lemma searchBody_completed (net : network) (trimmed : string) :
  Eff.outcome (searchBody net trimmed) = inr tt ->
  exists geocodeResponse first rest weatherResponse poiResponse w poiData result,
    answer net (GeocodeRequest trimmed) = inr geocodeResponse /\
    ok geocodeResponse = true /\
    json geocodeResponse = inr (VArr (first :: rest)) /\
    answer net (WeatherRequest (Place.lat (placeOf first)) (Place.lon (placeOf first)))
      = inr weatherResponse /\
    publishWeather weatherResponse = ([SetWeatherInfo w], inr tt) /\
    answer net (OverpassRequest (Place.lat (placeOf first)) (Place.lon (placeOf first)))
      = inr poiResponse /\
    ok poiResponse = true /\
    json poiResponse = inr poiData /\
    formatted (Place.lat (placeOf first)) (Place.lon (placeOf first))
              (elementsOf poiData) = inr result /\
    Eff.trace (searchBody net trimmed)
    = Fetch (GeocodeRequest trimmed) :: fanOut first
        ++ [SetWeatherInfo w] ++ publication result.
Proof.
  unfold searchBody, fetch.
  destruct (answer net (GeocodeRequest trimmed)) as [ eg | geocodeResponse ] eqn:Hans;
    [ discriminate | ].
  cbn [Eff.bind].
  destruct (ok geocodeResponse) eqn:Hgok; cbn [negb]; [ | discriminate ].
  destruct (json geocodeResponse) as [ ej | geocodeData ] eqn:Hjson;
    [ discriminate | ].
  cbn [Eff.lift Eff.bind app].
  destruct geocodeData as [ | | | | | [ | first rest ] | ]; try discriminate.
  unfold searchAround.
  destruct (isNullish first); [ discriminate | ].
  unfold fetchBoth. fold (placeOf first).
  change (parseFloat (prop first "lat")) with (Place.lat (placeOf first)).
  change (parseFloat (prop first "lon")) with (Place.lon (placeOf first)).
  destruct (answer net (WeatherRequest _ _)) as [ ew | weatherResponse ] eqn:Hwa;
    destruct (answer net (OverpassRequest _ _)) as [ ep | poiResponse ] eqn:Hpa;
    cbn [Eff.bind Eff.emit app]; try discriminate.
  destruct (ok poiResponse) eqn:Hpok; cbn [negb]; [ | discriminate ].
  destruct (publishWeather_cases weatherResponse) as [ (w & Hw) | (e & Hw) ];
    rewrite Hw; cbn [Eff.bind app]; [ | discriminate ].
  destruct (publishPois_cases (Place.lat (placeOf first)) (Place.lon (placeOf first))
              poiResponse)
    as [ (e & Hp) | (poiData & result & Hpjson & Hf & Hp) ]; rewrite Hp;
    [ discriminate | ].
  intros _.
  exists geocodeResponse, first, rest, weatherResponse, poiResponse, w, poiData, result.
  repeat (split; [ first [ reflexivity | assumption ] | ]).
  reflexivity.
Qed.

(** X4.  A search whose [try] block completes has stored the place of the
    geocoder's first match, the weather read from the weather response
    for that place, and the result of the chain on the elements of the
    POI response for that place; the error message is then empty exactly
    when that result is not: an empty result leaves the message "No
    notable places found within 2km of this location." beside the new
    place. *)
Theorem completed_search_state
    (u : User) (userQuery : string) (net : network) (st : AppState) :
  Str.trim userQuery <> "" ->
  Eff.outcome (searchBody net (Str.trim userQuery)) = inr tt ->
  let st' := run st (Eff.trace (handleSearch (Some u) userQuery net)) in
  exists geocodeResponse first rest weatherResponse poiResponse poiData result,
    answer net (GeocodeRequest (Str.trim userQuery)) = inr geocodeResponse /\
    ok geocodeResponse = true /\
    json geocodeResponse = inr (VArr (first :: rest)) /\
    answer net (WeatherRequest (Place.lat (placeOf first)) (Place.lon (placeOf first)))
      = inr weatherResponse /\
    answer net (OverpassRequest (Place.lat (placeOf first)) (Place.lon (placeOf first)))
      = inr poiResponse /\
    ok poiResponse = true /\
    json poiResponse = inr poiData /\
    formatted (Place.lat (placeOf first)) (Place.lon (placeOf first))
              (elementsOf poiData) = inr result /\
    selectedPlace st' = Some (placeOf first) /\
    publishWeather weatherResponse = ([SetWeatherInfo (weatherInfo st')], inr tt) /\
    pois st' = result /\
    errorMessage st' = resultMessage result /\
    (errorMessage st' = "" <-> result <> []) /\
    isLoading st' = false.
Proof.
  intros Hq Hdone st'. subst st'.
  rewrite (handleSearch_validated u userQuery net Hq). cbn [Eff.trace fst].
  destruct (searchBody_completed net (Str.trim userQuery) Hdone)
    as (geocodeResponse & first & rest & weatherResponse & poiResponse & w
        & poiData & result & Hans & Hgok & Hjson & Hwa & Hw & Hpa & Hpok & Hpjson
        & Hf & Htrace).
  rewrite Htrace, Hdone.
  exists geocodeResponse, first, rest, weatherResponse, poiResponse, poiData, result.
  repeat (split; [ assumption | ]).
  rewrite publication_message.
  destruct result; destruct st; cbn; repeat split;
    try assumption; try discriminate; congruence.
Qed.

Lemma showsNoMatches_error (st : AppState) :
  Str.isEmpty (errorMessage st) = false -> showsNoMatches st = false.
Proof. unfold showsNoMatches. intros ->. apply andb_false_r. Qed.

Lemma showsNoMatches_pois (st : AppState) :
  Nat.eqb (List.length (pois st)) 0 = false -> showsNoMatches st = false.
Proof.
  unfold showsNoMatches. intros ->. now rewrite andb_false_r.
Qed.

(** X6.  After a search, whatever its input and its outcome, an empty POI list
    comes with an error message: the panel's line "No matching points of
    interest in this area." is never what a finished search shows. *)
Theorem finished_search_never_shows_no_matches
    (user : option User) (userQuery : string) (net : network) (st : AppState) :
  showsNoMatches (run st (Eff.trace (handleSearch user userQuery net))) = false.
Proof.
  destruct user as [ u | ];
    [ | apply showsNoMatches_error; destruct st; reflexivity ].
  destruct (Str.isEmpty (Str.trim userQuery)) eqn:Hq.
  - unfold handleSearch. rewrite Hq.
    apply showsNoMatches_error; destruct st; reflexivity.
  - apply isEmpty_false in Hq.
    rewrite (handleSearch_validated u userQuery net Hq). cbn [Eff.trace fst].
    search_shapes net userQuery; split_result;
      first [ apply showsNoMatches_error; destruct st; cbn;
              rewrite ?orElse_isEmpty; reflexivity
            | apply showsNoMatches_pois; destruct st; reflexivity ].
Qed.

(** ** Further properties of the translation handler *)

Lemma translateBody_shape (net : network) (endpoint trimmed : string) :
  (exists t, t <> "" /\
     translateBody net endpoint trimmed
     = ([ Fetch (TranslateRequest endpoint trimmed); SetTranslationResult t ], inr tt))
  \/ (exists e, translateBody net endpoint trimmed
                = ([ Fetch (TranslateRequest endpoint trimmed) ], inl e)).
Proof.
  unfold translateBody, fetch.
  destruct (answer net (TranslateRequest endpoint trimmed)) as [ e | r ];
    [ right; eexists; reflexivity | ].
  cbn [Eff.bind]. destruct (ok r); cbn [negb].
  - destruct (json r) as [ e | data ]; [ right; eexists; reflexivity | ].
    cbn [Eff.lift Eff.bind app].
    destruct (Str.isEmpty _) eqn:Ht.
    + right. eexists; reflexivity.
    + left. eexists. split; [ | reflexivity ]. now apply isEmpty_false.
  - destruct (text r) as [ e | errorText ]; right; eexists; reflexivity.
Qed.

Lemma handleTranslate_validated (env : value) (u : User) (englishText : string)
    (net : network) :
  Str.trim englishText <> "" ->
  TRANSLATION_ENDPOINT env <> "" ->
  let body := translateBody net (TRANSLATION_ENDPOINT env) (Str.trim englishText) in
  handleTranslate env (Some u) englishText net
  = (translateOpening ++ Eff.trace body
       ++ match Eff.outcome body with
          | inl e => [ SetTranslationError
                         (Str.orElse (message e) "Unable to translate this sentence.") ]
          | inr _ => []
          end ++ [ SetIsTranslating false ],
     inr tt).
Proof.
  intros Ht He body. subst body.
  apply isEmpty_false in Ht, He.
  unfold handleTranslate. rewrite Ht, He.
  destruct (translateBody net _ _) as [ tr [ e | [] ] ];
    cbn; rewrite <- ?app_assoc, ?app_nil_r; reflexivity.
Qed.

(** X19.  A translation that passes validation sends exactly one request, ends
    with the translating flag down and returns.  It leaves a translation
    and no error, or an error and no translation: never both, never
    neither. *)
Theorem validated_translate_outcome
    (env : value) (u : User) (englishText : string) (net : network) (st : AppState) :
  Str.trim englishText <> "" ->
  TRANSLATION_ENDPOINT env <> "" ->
  let m := handleTranslate env (Some u) englishText net in
  let st' := run st (Eff.trace m) in
  Eff.outcome m = inr tt /\
  requests (Eff.trace m)
    = [ TranslateRequest (TRANSLATION_ENDPOINT env) (Str.trim englishText) ] /\
  isTranslating st' = false /\
  ((translationResult st' <> "" /\ translationError st' = "") \/
   (translationResult st' = "" /\ translationError st' <> "")).
Proof.
  intros Ht He m st'. subst st' m.
  rewrite (handleTranslate_validated env u englishText net Ht He).
  cbn [Eff.trace Eff.outcome fst snd].
  split; [ reflexivity | ].
  destruct (translateBody_shape net (TRANSLATION_ENDPOINT env) (Str.trim englishText))
    as [ (t & Hnonempty & ->) | (e & ->) ]; cbn [Eff.trace Eff.outcome fst snd];
    destruct st; cbn; repeat split.
  - left. auto.
  - right. split; [ reflexivity | ].
    apply orElse_not_empty. discriminate.
Qed.

(** X20.  When the service answers with a success status and a JSON body whose
    [translated_text] is a string that does not trim to nothing, the
    trimmed text is published and the error is cleared. *)
Theorem translate_publishes_trimmed_text
    (env : value) (u : User) (englishText : string) (net : network) (st : AppState)
    (r : response) (data : value) (s : string) :
  Str.trim englishText <> "" ->
  TRANSLATION_ENDPOINT env <> "" ->
  answer net (TranslateRequest (TRANSLATION_ENDPOINT env) (Str.trim englishText))
    = inr r ->
  ok r = true ->
  json r = inr data ->
  getOpt data "translated_text" = VStr s ->
  Str.trim s <> "" ->
  let st' := run st (Eff.trace (handleTranslate env (Some u) englishText net)) in
  translationResult st' = Str.trim s /\
  translationError st' = "" /\
  isTranslating st' = false.
Proof.
  intros Ht He Hans Hok Hjson Hfield Hs st'. subst st'.
  rewrite (handleTranslate_validated env u englishText net Ht He).
  assert (Hbody : translateBody net (TRANSLATION_ENDPOINT env) (Str.trim englishText)
                  = ([ Fetch (TranslateRequest (TRANSLATION_ENDPOINT env)
                                               (Str.trim englishText));
                       SetTranslationResult (Str.trim s) ], inr tt)).
  { unfold translateBody, fetch. rewrite Hans. cbn [Eff.bind].
    rewrite Hok. cbn [negb]. rewrite Hjson. cbn [Eff.lift Eff.bind app].
    rewrite Hfield. apply isEmpty_false in Hs. rewrite Hs. reflexivity. }
  rewrite Hbody. destruct st; repeat split.
Qed.

(** X21.  When the service answers with a failure status, no translation is
    published and the error is read from the body: the [detail] field when
    it is a string, else the [error] field when it is a string, and a
    message with the status code when neither is, when the string is
    empty, or when the body is empty or not JSON.  An empty [detail]
    string hides the [error] field. *)
Theorem translate_failure_status_message
    (env : value) (u : User) (englishText : string) (net : network) (st : AppState)
    (r : response) (d : document) :
  Str.trim englishText <> "" ->
  TRANSLATION_ENDPOINT env <> "" ->
  answer net (TranslateRequest (TRANSLATION_ENDPOINT env) (Str.trim englishText))
    = inr r ->
  ok r = false ->
  content r = Readable d ->
  let st' := run st (Eff.trace (handleTranslate env (Some u) englishText net)) in
  translationResult st' = "" /\
  isTranslating st' = false /\
  translationError st' <> "" /\
  translationError st'
  = match d with
    | Json v =>
        match getOpt v "detail" with
        | VStr detail => Str.orElse detail (statusFallback r)
        | _ =>
            match getOpt v "error" with
            | VStr detail => Str.orElse detail (statusFallback r)
            | _ => statusFallback r
            end
        end
    | NotJson _ _ => statusFallback r
    end.
Proof.
  intros Ht He Hans Hok Hcontent st'. subst st'.
  rewrite (handleTranslate_validated env u englishText net Ht He).
  assert (Hbody : translateBody net (TRANSLATION_ENDPOINT env) (Str.trim englishText)
                  = ([ Fetch (TranslateRequest (TRANSLATION_ENDPOINT env)
                                               (Str.trim englishText)) ],
                     inl (Error (Str.orElse (errorDetail d) (statusFallback r))))).
  { unfold translateBody, fetch. rewrite Hans. cbn [Eff.bind].
    rewrite Hok. cbn [negb]. unfold text. rewrite Hcontent. reflexivity. }
  rewrite Hbody. cbn [Eff.trace Eff.outcome fst snd message].
  assert (Hfallback : statusFallback r <> "") by (unfold statusFallback; discriminate).
  assert (Hmsg : Str.orElse (Str.orElse (errorDetail d) (statusFallback r))
                            "Unable to translate this sentence."
                 = Str.orElse (errorDetail d) (statusFallback r)).
  { unfold Str.orElse at 1.
    pose proof (orElse_not_empty (errorDetail d) _ Hfallback) as H.
    apply isEmpty_false in H. now rewrite H. }
  rewrite Hmsg.
  assert (Hdetail : Str.orElse (errorDetail d) (statusFallback r)
                    = match d with
                      | Json v =>
                          match getOpt v "detail" with
                          | VStr detail => Str.orElse detail (statusFallback r)
                          | _ =>
                              match getOpt v "error" with
                              | VStr detail => Str.orElse detail (statusFallback r)
                              | _ => statusFallback r
                              end
                          end
                      | NotJson _ _ => statusFallback r
                      end).
  { unfold errorDetail. destruct d as [ t m | v ]; cbn.
    - destruct (Str.isEmpty t); reflexivity.
    - destruct (getOpt v "detail"); try reflexivity;
        destruct (getOpt v "error"); reflexivity. }
  destruct st; cbn.
  split; [ reflexivity | split; [ reflexivity | split ] ].
  - now apply orElse_not_empty.
  - exact Hdetail.
Qed.

(** ** The two handlers keep to their own state cells *)

Lemma handleSearch_frame
    (user : option User) (userQuery : string) (net : network) (st : AppState) :
  let st' := run st (Eff.trace (handleSearch user userQuery net)) in
  isTranslatorOpen st' = isTranslatorOpen st /\
  isTranslating st' = isTranslating st /\
  translationResult st' = translationResult st /\
  translationError st' = translationError st /\
  currentUser st' = currentUser st /\
  authLoading st' = authLoading st.
Proof.
  cbv zeta.
  destruct user as [ u | ]; [ | destruct st; repeat split ].
  destruct (Str.isEmpty (Str.trim userQuery)) eqn:Hq.
  - unfold handleSearch. rewrite Hq. destruct st; repeat split.
  - apply isEmpty_false in Hq.
    rewrite (handleSearch_validated u userQuery net Hq). cbn [Eff.trace fst].
    search_shapes net userQuery; split_result; destruct st; repeat split.
Qed.

(** X7.  A search never touches the translator: whatever its input and the
    answers of the services, the cells of the translation dialog, the
    user and the sign-in flag are as they were. *)
Theorem search_leaves_translator_alone
    (user : option User) (userQuery : string) (net : network) (st : AppState) :
  let st' := run st (Eff.trace (handleSearch user userQuery net)) in
  isTranslatorOpen st' = isTranslatorOpen st /\
  isTranslating st' = isTranslating st /\
  translationResult st' = translationResult st /\
  translationError st' = translationError st /\
  currentUser st' = currentUser st /\
  authLoading st' = authLoading st.
Proof. exact (handleSearch_frame user userQuery net st). Qed.

Lemma handleTranslate_frame
    (env : value) (user : option User) (englishText : string)
    (net : network) (st : AppState) :
  let st' := run st (Eff.trace (handleTranslate env user englishText net)) in
  isLoading st' = isLoading st /\
  errorMessage st' = errorMessage st /\
  selectedPlace st' = selectedPlace st /\
  pois st' = pois st /\
  weatherInfo st' = weatherInfo st /\
  isTranslatorOpen st' = isTranslatorOpen st /\
  currentUser st' = currentUser st /\
  authLoading st' = authLoading st.
Proof.
  cbv zeta.
  destruct user as [ u | ]; [ | destruct st; repeat split ].
  destruct (Str.isEmpty (Str.trim englishText)) eqn:Ht.
  - unfold handleTranslate. rewrite Ht. destruct st; repeat split.
  - destruct (Str.isEmpty (TRANSLATION_ENDPOINT env)) eqn:He.
    + unfold handleTranslate. rewrite Ht, He. destruct st; repeat split.
    + apply isEmpty_false in Ht, He.
      rewrite (handleTranslate_validated env u englishText net Ht He).
      cbn [Eff.trace fst].
      destruct (translateBody_shape net (TRANSLATION_ENDPOINT env)
                                    (Str.trim englishText))
        as [ (t & _ & ->) | (e & ->) ]; cbn [Eff.trace Eff.outcome fst snd];
        destruct st; repeat split.
Qed.

(** X22.  A translation never touches the search: the loading flag, the error
    message, the place, the POI list and the weather snapshot are as they
    were, and so are the dialog's open flag, the user and the sign-in
    flag. *)
Theorem translate_leaves_search_alone
    (env : value) (user : option User) (englishText : string)
    (net : network) (st : AppState) :
  let st' := run st (Eff.trace (handleTranslate env user englishText net)) in
  isLoading st' = isLoading st /\
  errorMessage st' = errorMessage st /\
  selectedPlace st' = selectedPlace st /\
  pois st' = pois st /\
  weatherInfo st' = weatherInfo st /\
  isTranslatorOpen st' = isTranslatorOpen st /\
  currentUser st' = currentUser st /\
  authLoading st' = authLoading st.
Proof. exact (handleTranslate_frame env user englishText net st). Qed.

(** ** Further properties of the ranking *)





Lemma filter_insert_other (d : R) (x : Poi.t) (l : list Poi.t) :
  hasDistance d x = false ->
  filter (hasDistance d) (insert byDistance x l) = filter (hasDistance d) l.
Proof.
  intros Hx. induction l as [ | y l IH ]; cbn [insert filter].
  - now rewrite Hx.
  - destruct (isPositive (byDistance x y)); cbn [filter].
    + now rewrite IH.
    + now rewrite Hx.
Qed.

Lemma filter_insert_same (d : R) (x : Poi.t) (l : list Poi.t) :
  Forall (fun p => isNum (Poi.distance p) = true) l ->
  hasDistance d x = true ->
  filter (hasDistance d) (insert byDistance x l) = x :: filter (hasDistance d) l.
Proof.
  intros Hnum Hx. induction Hnum as [ | y l Hy Hl IH ]; cbn [insert filter].
  - now rewrite Hx.
  - unfold byDistance at 1.
    unfold hasDistance in Hx.
    destruct (Poi.distance x) as [ | | dx ] eqn:Edx; try discriminate.
    destruct (Req_dec_T dx d) as [ -> | ]; [ | discriminate ].
    destruct (Poi.distance y) as [ | | dy ] eqn:Edy; try discriminate.
    cbn [minus isPositive].
    destruct (Rlt_dec 0 (d - dy)) as [ Hlt | Hge ]; cbn [filter].
    + rewrite IH.
      assert (Hy' : hasDistance d y = false).
      { unfold hasDistance. rewrite Edy.
        destruct (Req_dec_T dy d); [ lra | reflexivity ]. }
      now rewrite Hy'.
    + assert (Hx' : hasDistance d x = true).
      { unfold hasDistance. rewrite Edx.
        destruct (Req_dec_T d d); [ reflexivity | contradiction ]. }
      now rewrite Hx'.
Qed.

(** X9.  The sort is stable: POIs at the same distance stay in the order the
    service listed their features in. *)
Theorem sort_keeps_ties_in_order (d : R) (l : list Poi.t) :
  Forall (fun p => isNum (Poi.distance p) = true) l ->
  filter (hasDistance d) (sort byDistance l) = filter (hasDistance d) l.
Proof.
  induction 1 as [ | x l Hx Hl IH ]; cbn [sort filter]; [ reflexivity | ].
  destruct (hasDistance d x) eqn:Hd.
  - rewrite filter_insert_same; auto.
    + now rewrite IH.
    + now apply Forall_sort.
  - rewrite filter_insert_other; auto.
Qed.

Lemma sort_all_NaN (l : list Poi.t) :
  Forall (fun p => Poi.distance p = NaN) l -> sort byDistance l = l.
Proof.
  induction 1 as [ | x l Hx Hl IH ]; cbn [sort]; [ reflexivity | ].
  rewrite IH. destruct l as [ | y l ]; cbn [insert]; [ reflexivity | ].
  unfold byDistance. rewrite Hx. reflexivity.
Qed.

(** X10.  When a coordinate of the search center is not a number, as after a
    geocoder match that does not parse, every distance is [NaN], the
    comparator never orders two POIs, and the published list is the first
    five POIs in the order of the service. *)
Theorem formatted_without_center
    (latitude longitude : number) (elements : list value) (result : list Poi.t) :
  isNum latitude && isNum longitude = false ->
  formatted latitude longitude elements = inr result ->
  exists made,
    kept latitude longitude elements = inr made /\
    result = firstn 5 made /\
    Forall (fun p => Poi.distance p = NaN) result.
Proof.
  intros Hcenter Hres.
  destruct (formatted_subset _ _ _ _ Hres) as (made & Hkept & Hresult & _).
  pose proof (kept_without_center _ _ _ _ Hcenter Hkept) as Hnan.
  exists made. split; [ exact Hkept | ].
  rewrite Hresult, (sort_all_NaN made Hnan).
  split; [ reflexivity | now apply Forall_firstn ].
Qed.

(** ** Features that are kept *)

Lemma formatElement_located (latitude longitude : number) (element : value)
    (rlat rlon : number) :
  wellFormedFeature element = true ->
  resultLat element = VNum rlat ->
  resultLon element = VNum rlon ->
  exists p,
    formatElement latitude longitude element = inr (Some p) /\
    Poi.lat p = rlat /\ Poi.lon p = rlon /\
    Poi.id p = prop element "id" /\
    Poi.distance p = haversineDistance latitude longitude rlat rlon.
Proof.
  intros Hwf Hlat Hlon.
  destruct (formatElement_returns latitude longitude element Hwf) as (y & Hy).
  revert Hy. unfold formatElement.
  destruct (isNullish element); [ discriminate | ].
  rewrite Hlat, Hlon.
  destruct (buildPoiLabel _) as [ e | name ]; [ discriminate | ].
  destruct (buildCategory _) as [ e | category ]; [ discriminate | ].
  cbn [bindResult].
  destruct (get _ "addr:street") as [ e | street ]; [ discriminate | ].
  destruct (get _ "addr:full") as [ e | full ]; [ discriminate | ].
  cbn [bindResult]. intros _. eexists. split; [ reflexivity | ].
  repeat split.
Qed.


Lemma formatElement_madeFrom (latitude longitude : number) (element : value)
    (p : Poi.t) :
  formatElement latitude longitude element = inr (Some p) ->
  madeFrom latitude longitude element p.
Proof.
  unfold formatElement, madeFrom, locatedBy.
  destruct (isNullish element); [ discriminate | ].
  destruct (resultLat element) as [ | | | rlat | | | ]; try discriminate;
    try (destruct (resultLon element); discriminate).
  destruct (resultLon element) as [ | | | rlon | | | ]; try discriminate.
  set (tags := orEmptyObject (prop element "tags")).
  destruct (buildPoiLabel tags) as [ e | name ] eqn:Hname; [ discriminate | ].
  destruct (buildCategory tags) as [ e | category ] eqn:Hcat; [ discriminate | ].
  cbn [bindResult]. unfold get.
  destruct (isNullish tags); [ discriminate | ].
  cbn [bindResult]. intros H. inversion H; subst; clear H. cbn.
  repeat split.
Qed.

Lemma kept_madeFrom (latitude longitude : number) (elements : list value) :
  forall l, kept latitude longitude elements = inr l ->
  Forall (fun p => exists e, In e elements /\ madeFrom latitude longitude e p) l.
Proof.
  induction elements as [ | e elements IH ]; intros l.
  - unfold kept. cbn. intros H. inversion H. constructor.
  - rewrite kept_cons.
    destruct (formatElement latitude longitude e) as [ x | y ] eqn:He;
      [ discriminate | ].
    cbn [bindResult].
    destruct (kept latitude longitude elements) as [ x | ys ];
      [ discriminate | ].
    cbn [bindResult]. intros H. inversion H; subst; clear H.
    assert (Hys : Forall (fun p => exists e0, In e0 (e :: elements) /\
                                    madeFrom latitude longitude e0 p) ys).
    { eapply Forall_impl; [ | apply (IH ys eq_refl) ].
      intros p (e0 & Hin & Hmade). exists e0. split; [ now right | exact Hmade ]. }
    destruct y as [ p | ]; [ | exact Hys ].
    constructor; [ | exact Hys ].
    exists e. split; [ now left | ]. now apply formatElement_madeFrom.
Qed.

(** X12.  Every published POI is made from one feature of the answer: it has
    that feature's id, the name and the category derived from its tags,
    its resolved coordinates, its distance from the search center, and
    for address the street tag, else the full-address tag, else
    [null]. *)
Theorem published_poi_is_made_from_a_feature
    (latitude longitude : number) (elements : list value) (result : list Poi.t) :
  formatted latitude longitude elements = inr result ->
  Forall (fun p => exists e, In e elements /\ madeFrom latitude longitude e p) result.
Proof.
  intros Hres.
  destruct (formatted_subset _ _ _ _ Hres) as (made & Hkept & _ & Hsub).
  pose proof (kept_madeFrom _ _ _ _ Hkept) as Hmade.
  rewrite Forall_forall in Hmade. apply Forall_forall.
  intros p Hp. exact (Hmade p (Hsub p Hp)).
Qed.

(** X30.  A well-formed feature is dropped exactly when its latitude or its
    longitude can be resolved neither from the feature itself nor from
    its centroid; it is then mapped to [null] without an exception, and
    the result of the chain is the same as if the record were not in the
    list. *)
Theorem unlocated_feature_is_dropped
    (latitude longitude : number) (element : value) (before after : list value) :
  wellFormedFeature element = true ->
  (formatElement latitude longitude element = inr None
   <-> unresolved element "lat" || unresolved element "lon" = true) /\
  (unresolved element "lat" || unresolved element "lon" = true ->
   formatted latitude longitude (before ++ element :: after)
   = formatted latitude longitude (before ++ after)).
Proof.
  intros Hwf.
  assert (Hobj : isNullish element = false).
  { unfold wellFormedFeature in Hwf. apply andb_true_iff in Hwf.
    now apply negb_true_iff. }
  split; [ split | ].
  - intros Hnone.
    destruct (unresolved element "lat" || unresolved element "lon") eqn:E;
      [ reflexivity | exfalso ].
    apply orb_false_iff in E. destruct E as [ Elat Elon ].
    pose proof (resultLat_unresolved element) as Hlat.
    pose proof (resultLon_unresolved element) as Hlon.
    rewrite Elat in Hlat. rewrite Elon in Hlon. cbn [negb] in Hlat, Hlon.
    destruct (resultLat element) as [ | | | rlat | | | ] eqn:Rlat; try discriminate.
    destruct (resultLon element) as [ | | | rlon | | | ] eqn:Rlon; try discriminate.
    destruct (formatElement_located latitude longitude element rlat rlon
                Hwf Rlat Rlon) as (p & Hp & _).
    congruence.
  - now apply formatElement_dropped.
  - intros Hun. rewrite !formatted_kept.
    rewrite (kept_without latitude longitude element before after); [ reflexivity | ].
    now apply formatElement_dropped.
Qed.


(** ** Weather *)




(** ** The forms *)

Lemma rejected_search_sends_nothing (user : option User) (userQuery : string)
    (net : network) :
  user = None \/ Str.trim userQuery = "" ->
  requests (Eff.trace (handleSearch user userQuery net)) = [].
Proof.
  unfold handleSearch. intros [ -> | Hq ]; [ reflexivity | ].
  destruct user; [ | reflexivity ].
  apply isEmpty_true in Hq. now rewrite Hq.
Qed.

(** X23.  Submitting the search form without a signed-in user does nothing at
    all, not even set a message; with a user it runs the search on the
    text of the input.  A request leaves only for a signed-in user and a
    text that is not blank, and then the first request is the geocoding
    of the trimmed text. *)
Theorem search_form_submission
    (user : option User) (value : string) (net : network) :
  (user = None -> submitLocation user value net = ([], inr tt)) /\
  (user <> None -> submitLocation user value net = handleSearch user value net) /\
  (requests (Eff.trace (submitLocation user value net)) <> [] ->
   user <> None /\ Str.trim value <> "" /\
   hd_error (requests (Eff.trace (submitLocation user value net)))
     = Some (GeocodeRequest (Str.trim value))).
Proof.
  split; [ intros ->; reflexivity | ].
  split; [ destruct user; [ reflexivity | contradiction ] | ].
  destruct user as [ u | ]; [ | intros H; now contradiction H ].
  change (submitLocation (Some u) value net) with (handleSearch (Some u) value net).
  intros Hsent.
  destruct (Str.isEmpty (Str.trim value)) eqn:Hq.
  - apply isEmpty_true in Hq. exfalso. apply Hsent.
    apply rejected_search_sends_nothing. now right.
  - apply isEmpty_false in Hq.
    split; [ discriminate | split; [ exact Hq | ] ].
    rewrite (handleSearch_validated u value net Hq). cbn [Eff.trace fst].
    search_shapes net value; reflexivity.
Qed.

Lemma showsTranslation_error (st : AppState) :
  Str.isEmpty (translationError st) = false -> showsTranslation st = false.
Proof. unfold showsTranslation. intros ->. apply andb_false_r. Qed.

(** X24.  What the dialog prints after a submission is never an older
    translation: when it prints one, this submission sent a request and
    published that very text. *)
Theorem translation_shown_is_fresh
    (env : value) (user : option User) (inputValue : string)
    (net : network) (st : AppState) :
  let m := submitTranslation env user inputValue net in
  let st' := run st (Eff.trace m) in
  showsTranslation st' = true ->
  requests (Eff.trace m)
    = [ TranslateRequest (TRANSLATION_ENDPOINT env) (Str.trim inputValue) ] /\
  In (SetTranslationResult (translationResult st')) (Eff.trace m) /\
  translationResult st' <> "".
Proof.
  cbv zeta.
  change (submitTranslation env user inputValue net)
    with (handleTranslate env user inputValue net).
  assert (Hhidden : forall tr,
            Str.isEmpty (translationError (run st tr)) = false ->
            showsTranslation (run st tr) = true -> False).
  { intros tr Herr Hshown. rewrite (showsTranslation_error _ Herr) in Hshown.
    discriminate. }
  destruct user as [ u | ].
  - destruct (Str.isEmpty (Str.trim inputValue)) eqn:Ht.
    + unfold handleTranslate. rewrite Ht. intros H. exfalso.
      eapply Hhidden; [ | exact H ]. destruct st; reflexivity.
    + destruct (Str.isEmpty (TRANSLATION_ENDPOINT env)) eqn:He.
      * unfold handleTranslate. rewrite Ht, He. intros H. exfalso.
        eapply Hhidden; [ | exact H ]. destruct st; reflexivity.
      * apply isEmpty_false in Ht, He.
        rewrite (handleTranslate_validated env u inputValue net Ht He).
        cbn [Eff.trace fst].
        destruct (translateBody_shape net (TRANSLATION_ENDPOINT env)
                                      (Str.trim inputValue))
          as [ (t & Hnonempty & ->) | (e & ->) ];
          cbn [Eff.trace Eff.outcome fst snd].
        -- intros _. destruct st; cbn. repeat split; auto 10.
        -- intros H. exfalso. eapply Hhidden; [ | exact H ].
           destruct st; cbn [run fold_left app translateOpening apply translationError].
           apply isEmpty_false, orElse_not_empty. discriminate.
  - intros H. exfalso. eapply Hhidden; [ | exact H ]. destruct st; reflexivity.
Qed.

(** ** The dialog and the user *)

Lemma effects_user (before after : AppState) :
  currentUser (effects before after) = currentUser after.
Proof.
  unfold effects, closeWithoutUser, resetWhenClosed.
  destruct (userChanged before after), (Bool.eqb _ _),
    after as [ ? ? ? ? ? o ? ? ? u ? ]; cbn; destruct u, o; reflexivity.
Qed.

(** A round of effects closes a dialog that the render shows open without
    a user, provided the user has just gone. *)
Lemma effects_guard (before after : AppState) :
  (isTranslatorOpen after = true -> currentUser after = None ->
   currentUser before <> None) ->
  isTranslatorOpen (effects before after) = true ->
  currentUser (effects before after) <> None.
Proof.
  rewrite effects_user.
  unfold effects, userChanged, closeWithoutUser, resetWhenClosed.
  destruct before as [ ? ? ? ? ? o1 ? ? ? u1 ? ], after as [ ? ? ? ? ? o2 ? ? ? u2 ? ].
  cbn. intros Ha.
  destruct u2 as [ y | ]; [ intros _; discriminate | ].
  destruct o2.
  - specialize (Ha eq_refl eq_refl).
    destruct u1 as [ x | ]; [ | contradiction ].
    destruct o1; cbn; discriminate.
  - destruct u1, o1; cbn; discriminate.
Qed.

Lemma perform_guard (a : action) (st : AppState) :
  (isTranslatorOpen st = true -> currentUser st <> None) ->
  isTranslatorOpen (perform a st) = true ->
  currentUser (perform a st) = None ->
  currentUser st <> None.
Proof.
  intros Hinv.
  destruct a as [ firebaseUser | | | value net | env inputValue net ]; cbn [perform].
  - destruct st; cbn in *. auto.
  - unfold openTranslator. destruct (currentUser st) eqn:Hu.
    + intros _ _. discriminate.
    + intros Ho _. exact (Hinv Ho).
  - destruct st; cbn. discriminate.
  - assert (Hframe : forall m,
              m = submitLocation (currentUser st) value net ->
              isTranslatorOpen (run st (Eff.trace m)) = isTranslatorOpen st).
    { intros m ->. unfold submitLocation, LocationForm.handleSubmit.
      destruct (currentUser st) as [ u | ]; cbn [negb]; [ | reflexivity ].
      apply (handleSearch_frame (Some u) value net st). }
    rewrite (Hframe _ eq_refl). auto.
  - destruct (isTranslatorOpen st) eqn:Ho; [ | congruence ].
    intros _ _. auto.
Qed.

(** X25.  The translation dialog is never open without a signed-in user:
    whatever the identity provider reports and whatever is clicked or
    submitted, in any order, from the moment the application is
    mounted. *)
Theorem translator_open_only_with_user (actions : list action) :
  isTranslatorOpen (stateAfter actions) = true ->
  currentUser (stateAfter actions) <> None.
Proof.
  unfold stateAfter.
  assert (Hgen : forall st,
             (isTranslatorOpen st = true -> currentUser st <> None) ->
             isTranslatorOpen (fold_left step actions st) = true ->
             currentUser (fold_left step actions st) <> None).
  { induction actions as [ | a actions IH ]; intros st Hinv; [ exact Hinv | ].
    cbn [fold_left]. apply IH. unfold step, settle.
    apply effects_guard. intros Hopen Hnone. exfalso.
    revert Hopen Hnone. apply effects_guard. now apply perform_guard. }
  apply Hgen. cbn. discriminate.
Qed.

(** Two rounds are all there is: a third round runs no effect that
    changes the state. *)
Lemma settle_is_stable (before after : AppState) :
  effects (effects before after) (settle before after) = settle before after.
Proof.
  unfold settle, effects, userChanged, closeWithoutUser, resetWhenClosed.
  destruct before as [ ? ? ? ? ? o1 ? ? ? u1 ? ], after as [ ? ? ? ? ? o2 ? ? ? u2 ? ].
  destruct u1, u2, o1, o2; reflexivity.
Qed.

(** X26.  Signing out closes the translation dialog and, when it was open,
    empties it; the place, the POIs, the weather and the message of the
    last search stay in the state. *)
Theorem sign_out_closes_the_dialog (st : AppState) :
  currentUser st <> None ->
  let st' := step st (AuthStateChanged None) in
  currentUser st' = None /\
  isTranslatorOpen st' = false /\
  (isTranslatorOpen st = true ->
   translationResult st' = "" /\ translationError st' = "" /\
   isTranslating st' = false) /\
  selectedPlace st' = selectedPlace st /\
  pois st' = pois st /\
  weatherInfo st' = weatherInfo st /\
  errorMessage st' = errorMessage st.
Proof.
  intros Hu. cbv zeta.
  unfold step, settle, effects, userChanged, closeWithoutUser, resetWhenClosed.
  destruct st as [ ? ? ? ? ? o ? ? ? u ? ]. cbn in Hu.
  destruct u as [ x | ]; [ | contradiction ].
  destruct o; cbn; repeat split; discriminate.
Qed.

(** X27.  Closing the dialog empties it: the translation, its error and the
    translating flag are reset, so that the dialog opens empty the next
    time; nothing else changes. *)
Theorem closing_the_dialog_empties_it (st : AppState) :
  isTranslatorOpen st = true ->
  let st' := step st CloseTranslator in
  isTranslatorOpen st' = false /\
  translationResult st' = "" /\
  translationError st' = "" /\
  isTranslating st' = false /\
  showsTranslation (step st' ClickTranslate) = false /\
  currentUser st' = currentUser st /\
  selectedPlace st' = selectedPlace st /\
  pois st' = pois st /\
  weatherInfo st' = weatherInfo st /\
  errorMessage st' = errorMessage st /\
  isLoading st' = isLoading st.
Proof.
  intros Ho. cbv zeta.
  unfold step, settle, effects, userChanged, closeWithoutUser, resetWhenClosed,
    showsTranslation.
  destruct st as [ ? ? ? ? ? o ? ? ? u ? ]. cbn in Ho. subst o.
  destruct u as [ x | ]; cbn; repeat split.
Qed.

End Engine.

(** ** The great-circle distance: properties *)

Section HaversineFacts.

Local Open Scope R_scope.

Lemma toRad_0 : Haversine.toRad 0 = 0.
Proof. unfold Haversine.toRad. lra. Qed.


Lemma toRad_minus (x y : R) :
  Haversine.toRad (x - y) = Haversine.toRad x - Haversine.toRad y.
Proof. unfold Haversine.toRad. lra. Qed.


Lemma sin_half_sqr (x : R) : sin (x / 2) ^ 2 = (1 - cos x) / 2.
Proof.
  replace x with (2 * (x / 2)) at 2 by lra.
  rewrite cos_2a_sin. lra.
Qed.

Lemma sin_sqr_bounds (x : R) : 0 <= sin x ^ 2 <= 1.
Proof.
  pose proof (sin2_cos2 x) as H. unfold Rsqr in H. nra.
Qed.

Lemma hav_same (lat lon : R) : Haversine.hav lat lon lat lon = 0.
Proof.
  unfold Haversine.hav.
  replace (lat - lat) with 0 by lra.
  replace (lon - lon) with 0 by lra.
  rewrite toRad_0.
  replace (0 / 2) with 0 by lra.
  rewrite sin_0. ring.
Qed.


(** The quantity [a] stays between 0 and 1: both square roots of the
    source are taken of non-negative numbers. *)
Lemma hav_bounds (lat1 lon1 lat2 lon2 : R) :
  0 <= Haversine.hav lat1 lon1 lat2 lon2 <= 1.
Proof.
  unfold Haversine.hav.
  rewrite toRad_minus.
  set (p1 := Haversine.toRad lat1). set (p2 := Haversine.toRad lat2).
  set (u := sin (Haversine.toRad (lon2 - lon1) / 2) ^ 2).
  assert (Hu : 0 <= u <= 1) by apply sin_sqr_bounds.
  rewrite sin_half_sqr.
  pose proof (COS_bound (p2 - p1)) as Hd.
  pose proof (COS_bound (p2 + p1)) as Hs.
  assert (Hc : cos p1 * cos p2 = (cos (p2 - p1) + cos (p2 + p1)) / 2).
  { rewrite cos_minus, cos_plus. lra. }
  rewrite Hc.
  set (d := cos (p2 - p1)) in *. set (s := cos (p2 + p1)) in *.
  assert (0 <= (1 - u) * (1 - d)) by (apply Rmult_le_pos; lra).
  assert (0 <= (1 - u) * (1 + d)) by (apply Rmult_le_pos; lra).
  assert (0 <= u * (1 - s)) by (apply Rmult_le_pos; lra).
  assert (0 <= u * (1 + s)) by (apply Rmult_le_pos; lra).
  split; lra.
Qed.

Lemma atan2_0_1 : Haversine.atan2 0 1 = 0.
Proof.
  unfold Haversine.atan2.
  destruct (Rlt_dec 0 1) as [ _ | H ]; [ | lra ].
  replace (0 / 1) with 0 by lra.
  apply atan_0.
Qed.

Lemma distance_same (lat lon : R) : Haversine.distance lat lon lat lon = 0.
Proof.
  unfold Haversine.distance. rewrite hav_same.
  replace (1 - 0) with 1 by lra.
  rewrite sqrt_0, sqrt_1, atan2_0_1. ring.
Qed.


Lemma isZero_false (r : R) : r <> 0 -> isZero r = false.
Proof.
  intros H. unfold isZero. destruct (Req_dec_T r 0); [ contradiction | reflexivity ].
Qed.

Lemma isNegative_false (r : R) : 0 <= r -> isNegative r = false.
Proof.
  intros H. unfold isNegative. destruct (Rlt_dec r 0); [ lra | reflexivity ].
Qed.

(** With exact arithmetic, the function computes the formula on the
    values of its arguments when these are finite: both square roots are
    then taken of numbers in [0, 1]. *)
Lemma haversineDistance_finite (lat1 lon1 lat2 lon2 : R) :
  haversineDistance (Num lat1) (Num lon1) (Num lat2) (Num lon2)
  = Num (Haversine.distance lat1 lon1 lat2 lon2).
Proof.
  pose proof (hav_bounds lat1 lon1 lat2 lon2) as Ha.
  unfold haversineDistance, toRad, squared, Math.PI. cbv zeta.
  cbn [minus times]. unfold divide.
  rewrite !(isZero_false 180), !(isZero_false 2) by lra.
  cbn [Math.sin Math.cos times plus minus].
  match goal with
  | |- context [ Math.sqrt (Num ?a) ] =>
      replace a with (Haversine.hav lat1 lon1 lat2 lon2)
        by (unfold Haversine.hav, Haversine.toRad; cbv zeta; ring)
  end.
  unfold Math.sqrt. rewrite !isNegative_false by lra.
  reflexivity.
Qed.

Lemma atan2_positive (y x : R) : 0 < y -> 0 <= x -> 0 < Haversine.atan2 y x.
Proof.
  intros Hy Hx. pose proof PI_RGT_0 as Hpi.
  unfold Haversine.atan2.
  destruct (Rlt_dec 0 x) as [ Hpos | Hnpos ].
  - rewrite <- atan_0. apply atan_increasing.
    now apply Rdiv_lt_0_compat.
  - destruct (Rlt_dec x 0); [ lra | ].
    destruct (Rlt_dec 0 y); lra.
Qed.

(** A point one degree of latitude away is at a positive distance. *)
Lemma a_degree_away : 0 < Haversine.distance 21 105 22 105.
Proof.
  pose proof PI_RGT_0 as Hpi.
  pose proof (hav_bounds 21 105 22 105) as Hb.
  assert (Ha : 0 < Haversine.hav 21 105 22 105).
  { unfold Haversine.hav. cbv zeta.
    replace (105 - 105) with 0 by lra.
    rewrite toRad_0. replace (0 / 2) with 0 by lra. rewrite sin_0.
    assert (Hs : 0 < sin (Haversine.toRad (22 - 21) / 2)).
    { apply sin_gt_0; unfold Haversine.toRad; lra. }
    nra. }
  unfold Haversine.distance, Haversine.earthRadius. cbv zeta.
  pose proof (atan2_positive (sqrt (Haversine.hav 21 105 22 105))
                (sqrt (1 - Haversine.hav 21 105 22 105))
                (sqrt_lt_R0 _ Ha) (sqrt_pos _)) as Hc.
  nra.
Qed.


End HaversineFacts.

(** ** The properties at concrete inputs *)

(** A search without a signed-in user, in a state left by an earlier
    search. *)
Lemma search_rejected_locally_witness :
  (@None User = None \/ Str.trim "Hanoi" = "") /\
  Eff.trace (handleSearch integerToString None "Hanoi" allUp)
    = [SetErrorMessage "Vui lòng đăng nhập để tìm kiếm địa điểm."] /\
  pois (run staleState (Eff.trace (handleSearch integerToString None "Hanoi" allUp)))
    = pois staleState /\
  isLoading (run staleState (Eff.trace (handleSearch integerToString None "Hanoi" allUp)))
    = false.
Proof.
  split; [ left; reflexivity | ].
  split; [ reflexivity | ].
  destruct (search_rejected_locally integerToString None "Hanoi" allUp staleState
              (or_introl eq_refl))
    as (_ & _ & _ & _ & _ & Hpois & _ & Hloading & _).
  split; [ exact Hpois | exact Hloading ].
Defined.

(** A query of white space only, by a signed-in user. *)
Example search_blank_query :
  Eff.trace (handleSearch integerToString (Some sampleUser) "   " allUp)
    = [SetErrorMessage "Please enter a location name."].
Proof. reflexivity. Qed.

(** A translation asked without a user, and one the service answers with
    white space. *)
Lemma translate_rejects_locally_and_on_empty_result_witness :
  networkCalls
    (Eff.trace (handleTranslate integerToString (VStr "https://api.example.com/")
                                None "Hello" noTranslation)) = 0
  /\
  translationError
    (run initialState
       (Eff.trace (handleTranslate integerToString (VStr "https://api.example.com/")
                                   (Some sampleUser) "Hello" noTranslation)))
    = "Translation service did not return any translated text.".
Proof.
  split.
  - destruct (translate_rejects_locally_and_on_empty_result integerToString
                (VStr "https://api.example.com/") None "Hello" noTranslation
                initialState) as [ Hlocal _ ].
    destruct (Hlocal (or_introl eq_refl)) as (Hcalls & _). exact Hcalls.
  - destruct (translate_rejects_locally_and_on_empty_result integerToString
                (VStr "https://api.example.com/") (Some sampleUser) "Hello"
                noTranslation initialState) as [ _ Hempty ].
    assert (Huser : Some sampleUser <> None) by discriminate.
    assert (Htext : Str.trim "Hello" <> "") by discriminate.
    assert (Hendpoint : TRANSLATION_ENDPOINT (VStr "https://api.example.com/") <> "")
      by discriminate.
    destruct (Hempty (okResponse (VObj [ ("translated_text", VStr "   ") ]))
                     (VObj [ ("translated_text", VStr "   ") ])
                     Huser Htext Hendpoint eq_refl eq_refl eq_refl eq_refl)
      as (_ & _ & Herror & _).
    exact Herror.
Defined.

(** The endpoint is not configured when the variable is missing or is "/". *)
Example endpoint_unconfigured :
  TRANSLATION_ENDPOINT VUndefined = "" /\
  TRANSLATION_ENDPOINT (VStr "/") = "" /\
  TRANSLATION_ENDPOINT (VStr "https://api.example.com/")
    = "https://api.example.com/translate".
Proof. repeat split. Qed.

(** *** The great-circle distance at a point that is not finite *)



(** *** Features whose coordinates are partial or not finite *)

Lemma formatted_three (numberToString : R -> string) (latitude longitude : number)
    (a b c : value) (pa pb pc : Poi.t) :
  formatElement numberToString latitude longitude a = inr (Some pa) ->
  formatElement numberToString latitude longitude b = inr (Some pb) ->
  formatElement numberToString latitude longitude c = inr (Some pc) ->
  Poi.distance pb = NaN ->
  formatted numberToString latitude longitude [ a; b; c ] = inr [ pa; pb; pc ].
Proof.
  intros Ha Hb Hc Hnan.
  rewrite formatted_kept, !kept_cons, Ha, Hb, Hc.
  unfold kept. cbn [mapResult bindResult filterBoolean].
  assert (Hb' : insert byDistance pb [ pc ] = [ pb; pc ]).
  { cbn [insert]. unfold byDistance. rewrite Hnan. reflexivity. }
  assert (Ha' : insert byDistance pa [ pb; pc ] = [ pa; pb; pc ]).
  { cbn [insert]. unfold byDistance. rewrite Hnan.
    destruct (Poi.distance pa); reflexivity. }
  cbn [sort]. change (insert byDistance pc []) with [ pc ].
  rewrite Hb', Ha'. reflexivity.
Qed.

(** A list of two or more POIs that holds a distance [NaN] is not in
    non-decreasing order, whatever the order of its elements: [NaN] is
    neither below nor above its neighbour. *)
Lemma unordered_beside_NaN (p : Poi.t) (l : list Poi.t) :
  In p l -> Poi.distance p = NaN -> 2 <= List.length l -> ~ Sorted noFarther l.
Proof.
  intros Hin Hnan. induction l as [ | x t IH ]; [ contradiction | ].
  intros Hlen Hsorted. apply Sorted_inv in Hsorted. destruct Hsorted as [ Ht Hhd ].
  destruct t as [ | y t' ]; [ simpl in Hlen; lia | ].
  apply HdRel_inv in Hhd. unfold noFarther in Hhd.
  destruct Hin as [ <- | [ <- | Hin ] ].
  - rewrite Hnan in Hhd. destruct Hhd as [ H | [ _ H ] ]; [ exact H | now apply H ].
  - rewrite Hnan in Hhd. destruct Hhd as [ H | [ H1 H2 ] ]; [ | congruence ].
    destruct (Poi.distance x); exact H.
  - apply IH; [ now right | | exact Ht ].
    destruct t'; [ contradiction | simpl; lia ].
Qed.

(** C1 at the failing input.  The POI service lists a feature one degree
    away, a feature whose latitude is the numeral [1e999], and a feature at
    the search center.  The second has a latitude of type number, so it is
    kept, with the distance [NaN]; the comparator answers [NaN] whenever it
    is asked about it, the sort moves nothing, and the list is published
    with the farthest POI first and the nearest last.  In no order at all
    would these three POIs be in non-decreasing order of distance. *)
Theorem unbounded_latitude_breaks_the_order :
  forallb wellFormedFeature [ farther; overflowing; nearby ] = true /\
  exists far unbounded near,
    formatted integerToString (Num 21) (Num 105) [ farther; overflowing; nearby ]
      = inr [ far; unbounded; near ] /\
    Poi.id far = VNum (Num 10) /\
    Poi.id unbounded = VNum (Num 11) /\
    Poi.id near = VNum (Num 12) /\
    Poi.lat unbounded = Infinity false /\
    Poi.distance unbounded = NaN /\
    Poi.distance near = Num 0 /\
    lessThan (Poi.distance near) (Poi.distance far) /\
    ~ StronglySorted notAfter [ far; unbounded; near ] /\
    forall l, Permutation l [ far; unbounded; near ] -> ~ Sorted noFarther l.
Proof.
  split; [ reflexivity | ].
  destruct (formatElement_located integerToString (Num 21) (Num 105) farther
              (Num 22) (Num 105) eq_refl eq_refl eq_refl)
    as (far & Hfar & _ & _ & Hfid & Hfd).
  destruct (formatElement_located integerToString (Num 21) (Num 105) overflowing
              (Infinity false) (Num 105) eq_refl eq_refl eq_refl)
    as (unbounded & Hunb & Hulat & _ & Huid & Hud).
  destruct (formatElement_located integerToString (Num 21) (Num 105) nearby
              (Num 21) (Num 105) eq_refl eq_refl eq_refl)
    as (near & Hnear & _ & _ & Hnid & Hnd).
  rewrite haversineDistance_finite in Hfd, Hnd. rewrite distance_same in Hnd.
  rewrite haversineDistance_not_finite in Hud by reflexivity.
  assert (Hless : lessThan (Poi.distance near) (Poi.distance far)).
  { rewrite Hnd, Hfd. exact a_degree_away. }
  exists far, unbounded, near.
  split; [ exact (formatted_three _ _ _ _ _ _ _ _ _ Hfar Hunb Hnear Hud) | ].
  repeat (split; [ assumption | ]).
  split.
  - intros Hsorted. apply StronglySorted_inv in Hsorted.
    destruct Hsorted as [ _ Hfirst ].
    inversion Hfirst as [ | ? ? _ Hrest ]; subst.
    inversion Hrest as [ | ? ? Hnot _ ]; subst.
    exact (Hnot Hless).
  - intros l Hperm. apply (unordered_beside_NaN unbounded); [ | exact Hud | ].
    + apply (Permutation_in _ (Permutation_sym Hperm)). simpl. auto.
    + rewrite (Permutation_length Hperm). simpl. lia.
Qed.

(** C4 at the failing input.  The POI service lists a record with its own
    [lat], no [lon], and a centroid that has only a [lon], and a record
    whose latitude is the numeral [1e999].  The first lacks a direct point
    coordinate and lacks a centroid, and yet it is published, at the point
    made of the one [lat] and the other [lon].  The second is published
    with a latitude that is not finite. *)
Theorem partial_and_unbounded_coordinates_are_published :
  forallb wellFormedFeature [ halfCentroid; overflowing ] = true /\
  lacksDirectCoordinate halfCentroid = true /\
  lacksCentroid halfCentroid = true /\
  exists stitched unbounded,
    formatted integerToString (Num 21) (Num 105) [ halfCentroid; overflowing ]
      = inr [ stitched; unbounded ] /\
    Poi.id stitched = VNum (Num 7) /\
    Poi.lat stitched = Num 21 /\
    Poi.lon stitched = Num 105 /\
    Poi.id unbounded = VNum (Num 11) /\
    Poi.lat unbounded = Infinity false /\
    isNum (Poi.lat unbounded) = false /\
    Poi.distance unbounded = NaN.
Proof.
  repeat (split; [ reflexivity | ]).
  destruct (formatElement_located integerToString (Num 21) (Num 105) halfCentroid
              (Num 21) (Num 105) eq_refl eq_refl eq_refl)
    as (p & Hp & Hlat & Hlon & Hid & _).
  destruct (formatElement_located integerToString (Num 21) (Num 105) overflowing
              (Infinity false) (Num 105) eq_refl eq_refl eq_refl)
    as (q & Hq & Hqlat & _ & Hqid & Hd).
  rewrite haversineDistance_not_finite in Hd by reflexivity.
  exists p, q. split.
  - rewrite formatted_kept, !kept_cons, Hp, Hq.
    unfold kept. cbn [mapResult bindResult filterBoolean sort].
    change (insert byDistance q []) with [ q ].
    cbn [insert]. unfold byDistance. rewrite Hd.
    destruct (Poi.distance p); reflexivity.
  - rewrite Hqlat. auto 10.
Qed.

(** *** A search that fails after the weather has been published *)

(** C2 at the failing input.  The weather service answers with current
    conditions and the POI service answers with a success status and a
    body that is not JSON: the search ends in the [catch] block, the error
    message is set, the POI list is empty, and the weather snapshot of this
    very search is in the state. *)
Lemma failed_search_keeps_weather :
  let body := searchBody integerToString brokenPoiBody (Str.trim "Hanoi") in
  let st' := run staleState
                 (Eff.trace (handleSearch integerToString (Some sampleUser)
                                          "Hanoi" brokenPoiBody)) in
  Eff.outcome body = inl (SyntaxError "Unexpected token '<'") /\
  errorMessage st' = "Unexpected token '<'" /\
  pois st' = [] /\
  isLoading st' = false /\
  weatherInfo st'
    = Some (weatherSnapshot integerToString (prop currentWeather "current_weather")) /\
  ~ (errorMessage st' <> "" /\ pois st' = [] /\ weatherInfo st' = None).
Proof.
  cbv zeta.
  split; [ reflexivity | ].
  split; [ reflexivity | ].
  split; [ reflexivity | ].
  split; [ reflexivity | ].
  split; [ reflexivity | ].
  intros (_ & _ & H). discriminate H.
Qed.

Lemma failed_search_state_witness :
  Str.trim "Hanoi" <> "" /\
  Eff.outcome (searchBody integerToString brokenPoiBody (Str.trim "Hanoi"))
    = inl (SyntaxError "Unexpected token '<'") /\
  pois (run staleState
            (Eff.trace (handleSearch integerToString (Some sampleUser)
                                     "Hanoi" brokenPoiBody))) = [] /\
  isLoading (run staleState
                 (Eff.trace (handleSearch integerToString (Some sampleUser)
                                          "Hanoi" brokenPoiBody))) = false.
Proof.
  assert (Hq : Str.trim "Hanoi" <> "") by discriminate.
  split; [ exact Hq | ].
  split; [ reflexivity | ].
  destruct (failed_search_state integerToString sampleUser "Hanoi" brokenPoiBody
              staleState (SyntaxError "Unexpected token '<'") Hq eq_refl)
    as (_ & _ & Hpois & Hloading & _).
  split; assumption.
Defined.

(** *** A geocoder match whose latitude is not a numeral *)

(** C3 at the failing input.  The first match has the latitude "abc": it is
    stored as the new place with the latitude [NaN], both requests are sent
    for it, and the error of the search is the one of the POI request, not
    the one of an empty geocoder answer. *)
Lemma unparsable_latitude_is_published :
  let m := handleSearch integerToString (Some sampleUser) "Hanoi" badGeocoder in
  let st' := run staleState (Eff.trace m) in
  parseFloat integerToString (prop badLatitude "lat") = NaN /\
  selectedPlace st' = Some (placeOf integerToString badLatitude) /\
  Place.lat (placeOf integerToString badLatitude) = NaN /\
  In (Fetch (OverpassRequest NaN (Place.lon (placeOf integerToString badLatitude))))
     (Eff.trace m) /\
  errorMessage st' = "Unable to fetch nearby points of interest." /\
  errorMessage st' <> "No matching location found in Vietnam.".
Proof.
  cbv zeta.
  split; [ reflexivity | ].
  split; [ reflexivity | ].
  split; [ reflexivity | ].
  split; [ simpl; auto 10 | ].
  split; [ reflexivity | discriminate ].
Qed.


(** *** A weather service that cannot be reached *)

(** C5 at the failing input.  The weather request is rejected and the POI
    service answers with seven features: the search ends in the [catch]
    block with the message of the rejection, and publishes no POI. *)
Theorem weather_outage_fails_search :
  let m := handleSearch integerToString (Some sampleUser) "Hanoi" weatherDown in
  let st' := run initialState (Eff.trace m) in
  Eff.outcome (searchBody integerToString weatherDown (Str.trim "Hanoi"))
    = inl failedToFetch /\
  errorMessage st' = "Failed to fetch" /\
  pois st' = [] /\
  weatherInfo st' = None /\
  isLoading st' = false /\
  forall l, In (SetPois l) (Eff.trace m) -> l = [].
Proof.
  cbv zeta.
  repeat (split; [ reflexivity | ]).
  intros l H. simpl in H.
  repeat (destruct H as [ H | H ]; try discriminate); try contradiction.
  now injection H.
Qed.

(** *** A search that succeeds *)

(** One feature comes back: the place, the weather and the POI are
    published and no error is left. *)
Example search_with_one_feature :
  let net := networkOf (inr (okResponse (VArr [ hanoi ])))
                       (inr (okResponse currentWeather))
                       (inr (okResponse (VObj [ ("elements", VArr [ museum ]) ])))
                       (inl failedToFetch) in
  let st' := run staleState
                 (Eff.trace (handleSearch integerToString (Some sampleUser)
                                          "  Hanoi " net)) in
  errorMessage st' = "" /\
  isLoading st' = false /\
  selectedPlace st' = Some (placeOf integerToString hanoi) /\
  weatherInfo st' <> None /\
  map Poi.name (pois st') = [ VStr "Bao tang" ] /\
  map Poi.category (pois st') = [ "tourism: museum" ] /\
  map Poi.lat (pois st') = [ Num 21 ] /\
  map Poi.lon (pois st') = [ Num 106 ].
Proof.
  cbv zeta. repeat split; try reflexivity. discriminate.
Qed.

(** ** The translation endpoint *)

Lemma string_app_assoc (a b c : string) : ((a ++ b) ++ c = a ++ (b ++ c))%string.
Proof. induction a as [ | x a IH ]; cbn; [ reflexivity | now rewrite IH ]. Qed.

Lemma string_app_nil_r (a : string) : (a ++ "" = a)%string.
Proof. induction a as [ | x a IH ]; cbn; [ reflexivity | now rewrite IH ]. Qed.

Lemma rev_onto_app (s acc : string) :
  Str.rev_onto s acc = (Str.rev s ++ acc)%string.
Proof.
  unfold Str.rev. revert acc.
  induction s as [ | c s IH ]; intros acc; cbn [Str.rev_onto]; [ reflexivity | ].
  rewrite (IH (String c acc)), (IH (String c "")), string_app_assoc. reflexivity.
Qed.

Lemma rev_cons (c : ascii) (s : string) :
  Str.rev (String c s) = (Str.rev s ++ String c "")%string.
Proof. unfold Str.rev at 1. cbn [Str.rev_onto]. apply rev_onto_app. Qed.

Lemma rev_app (a b : string) : Str.rev (a ++ b) = (Str.rev b ++ Str.rev a)%string.
Proof.
  induction a as [ | c a IH ]; cbn [append].
  - now rewrite string_app_nil_r.
  - now rewrite !rev_cons, IH, string_app_assoc.
Qed.

Lemma rev_involutive (s : string) : Str.rev (Str.rev s) = s.
Proof.
  induction s as [ | c s IH ]; [ reflexivity | ].
  rewrite rev_cons, rev_app, IH. reflexivity.
Qed.

Lemma endsWith_slash (s : string) :
  Str.endsWith s "/" = true <-> exists t, s = (t ++ "/")%string.
Proof.
  unfold Str.endsWith, Str.startsWith.
  change (Str.rev "/") with "/". split.
  - destruct (Str.rev s) as [ | c r ] eqn:Hrev; cbn [Str.drop_prefix];
      [ discriminate | ].
    destruct (Ascii.eqb "/" c) eqn:Hc; [ | discriminate ].
    intros _. apply Ascii.eqb_eq in Hc. subst c.
    exists (Str.rev r).
    rewrite <- (rev_involutive s), Hrev, rev_cons. reflexivity.
  - intros (t & ->). rewrite rev_app.
    change (Str.rev "/") with "/". cbn [append Str.drop_prefix].
    now rewrite Ascii.eqb_refl.
Qed.

Lemma dropLast_app (t : string) (c : ascii) :
  Str.dropLast (t ++ String c "") = t.
Proof.
  unfold Str.dropLast. rewrite rev_app. cbn. apply rev_involutive.
Qed.

Lemma app_slash_not_empty (t : string) : (t ++ "/")%string <> "".
Proof. destruct t; discriminate. Qed.

Lemma normalizeBaseUrl_trailing (t : string) :
  normalizeBaseUrl (VStr (t ++ "/")) = t.
Proof.
  cbn [normalizeBaseUrl].
  assert (H : Str.endsWith (t ++ "/") "/" = true) by (apply endsWith_slash; eauto).
  rewrite H. apply dropLast_app.
Qed.

(** X17.  The endpoint is unconfigured in exactly three cases: the variable is
    not a string, it is the empty string, or it is a lone slash. *)
Theorem endpoint_unconfigured_iff (env : value) :
  TRANSLATION_ENDPOINT env = ""
  <-> (forall s, env <> VStr s) \/ env = VStr "" \/ env = VStr "/".
Proof.
  unfold TRANSLATION_ENDPOINT, TRANSLATION_API_BASE_URL. split.
  - intros H.
    assert (Hbase : normalizeBaseUrl env = "").
    { destruct (normalizeBaseUrl env) as [ | c b ]; [ reflexivity | ].
      cbn in H. discriminate. }
    clear H.
    destruct env as [ | | | | s | | ]; try (left; intros s' H'; discriminate).
    right. cbn [normalizeBaseUrl] in Hbase.
    destruct (Str.endsWith s "/") eqn:Hend.
    + apply endsWith_slash in Hend. destruct Hend as (t & ->).
      rewrite dropLast_app in Hbase. subst t. right. reflexivity.
    + subst s. left. reflexivity.
  - intros [ Hnot | [ -> | -> ] ]; try reflexivity.
    destruct env; try reflexivity. exfalso. now apply (Hnot s).
Qed.

(** X18.  One trailing slash of the base address is ignored, and only one: a base
    given with or without it yields the same endpoint, the base followed by
    "/translate", while a base given with two trailing slashes keeps one of
    them. *)
Theorem endpoint_ignores_one_trailing_slash (base : string) :
  Str.endsWith base "/" = false ->
  TRANSLATION_ENDPOINT (VStr (base ++ "/")) = TRANSLATION_ENDPOINT (VStr base) /\
  (base <> "" -> TRANSLATION_ENDPOINT (VStr base) = (base ++ "/translate")%string) /\
  TRANSLATION_ENDPOINT (VStr ((base ++ "/") ++ "/"))
    = ((base ++ "/") ++ "/translate")%string.
Proof.
  intros Hend.
  unfold TRANSLATION_ENDPOINT, TRANSLATION_API_BASE_URL.
  rewrite !normalizeBaseUrl_trailing.
  assert (Hbase : normalizeBaseUrl (VStr base) = base)
    by (cbn [normalizeBaseUrl]; now rewrite Hend).
  rewrite Hbase.
  split; [ reflexivity | split ].
  - intros Hne. apply isEmpty_false in Hne. now rewrite Hne.
  - pose proof (app_slash_not_empty base) as Hne.
    apply isEmpty_false in Hne. now rewrite Hne.
Qed.

(** ** The sign-in panel *)

Section AuthPanelFacts.

Import AuthPanel.

Variable provider : call -> result unit.

(** X28.  A submission is rejected without any call to the identity provider
    when the email or the password trims to nothing, and, in register
    mode, when the confirmation differs from the password: the three
    fields and the submitting flag keep their values and an error message
    is set. *)
Theorem authPanel_rejects_locally (st : state) :
  Str.trim (email st) = "" \/ Str.trim (password st) = "" \/
  (mode st = register /\ password st <> confirmPassword st) ->
  let st' := run st (handleSubmit st provider) in
  calls (handleSubmit st provider) = [] /\
  AuthPanel.errorMessage st' <> "" /\
  email st' = email st /\
  password st' = password st /\
  confirmPassword st' = confirmPassword st /\
  isSubmitting st' = isSubmitting st /\
  mode st' = mode st.
Proof.
  intros Hrej. cbv zeta. unfold handleSubmit.
  destruct (Str.isEmpty (Str.trim (email st)) || Str.isEmpty (Str.trim (password st)))%bool
    eqn:Hblank.
  - destruct st; cbn; repeat split; try reflexivity; discriminate.
  - apply orb_false_iff in Hblank. destruct Hblank as [ He Hp ].
    apply isEmpty_false in He, Hp.
    destruct Hrej as [ H | [ H | [ Hmode Hdiff ] ] ]; try contradiction.
    replace (isRegister (mode st)) with true by (now rewrite Hmode).
    cbn [andb].
    apply String.eqb_neq in Hdiff. rewrite Hdiff. cbn [negb].
    destruct st; cbn; repeat split; try reflexivity; discriminate.
Qed.

(** X29.  A submission that passes the checks makes exactly one call to the
    identity provider, the operation of the current mode with the email
    and the password as typed, and ends with the submitting flag down.
    When the provider accepts, the three fields are emptied and no error
    is left; when it refuses, the fields stay and the error is set. *)
Theorem authPanel_submits (st : state) :
  Str.trim (email st) <> "" ->
  Str.trim (password st) <> "" ->
  (mode st = register -> password st = confirmPassword st) ->
  let st' := run st (handleSubmit st provider) in
  calls (handleSubmit st provider) = [ operation st ] /\
  isSubmitting st' = false /\
  mode st' = mode st /\
  match provider (operation st) with
  | inr _ =>
      email st' = "" /\ password st' = "" /\ confirmPassword st' = "" /\
      AuthPanel.errorMessage st' = ""
  | inl error =>
      email st' = email st /\ password st' = password st /\
      confirmPassword st' = confirmPassword st /\
      AuthPanel.errorMessage st'
        = Str.orElse (message error) "Không thể xử lý yêu cầu." /\
      AuthPanel.errorMessage st' <> ""
  end.
Proof.
  intros He Hp Hconfirm. cbv zeta. unfold handleSubmit.
  apply isEmpty_false in He, Hp. rewrite He, Hp. cbn [orb].
  assert (Hmatch : (isRegister (mode st)
                    && negb (String.eqb (password st) (confirmPassword st)))%bool
                   = false).
  { destruct (mode st) eqn:Hmode; [ reflexivity | ].
    rewrite (Hconfirm eq_refl), String.eqb_refl. reflexivity. }
  rewrite Hmatch.
  destruct (provider (operation st)) as [ error | [] ];
    destruct st; cbn; repeat split.
  apply orElse_not_empty. discriminate.
Qed.

End AuthPanelFacts.

(** ** The further properties at concrete inputs *)

Lemma validated_search_ends_idle_witness :
  Str.trim " Hanoi " <> "" /\
  loadingCalls (Eff.trace (handleSearch integerToString (Some sampleUser)
                                        " Hanoi " oneFeature)) = [ true; false ] /\
  isLoading (run staleState
                 (Eff.trace (handleSearch integerToString (Some sampleUser)
                                          " Hanoi " oneFeature))) = false.
Proof.
  assert (Hq : Str.trim " Hanoi " <> "") by discriminate.
  split; [ exact Hq | ].
  destruct (validated_search_ends_idle integerToString sampleUser " Hanoi "
              oneFeature staleState Hq) as (_ & Hcalls & Hidle).
  split; assumption.
Defined.

Lemma search_requests_witness :
  Str.trim "Hanoi" <> "" /\
  ((requests (Eff.trace (handleSearch integerToString (Some sampleUser)
                                      "Hanoi" nothingFound))
    = [ GeocodeRequest (Str.trim "Hanoi") ] /\
    selectedPlace (run staleState
                       (Eff.trace (handleSearch integerToString (Some sampleUser)
                                                "Hanoi" nothingFound)))
    = selectedPlace staleState)
   \/
   exists place,
     requests (Eff.trace (handleSearch integerToString (Some sampleUser)
                                       "Hanoi" nothingFound))
     = [ GeocodeRequest (Str.trim "Hanoi");
         WeatherRequest (Place.lat place) (Place.lon place);
         OverpassRequest (Place.lat place) (Place.lon place) ] /\
     selectedPlace (run staleState
                        (Eff.trace (handleSearch integerToString (Some sampleUser)
                                                 "Hanoi" nothingFound)))
     = Some place).
Proof.
  assert (Hq : Str.trim "Hanoi" <> "") by discriminate.
  split; [ exact Hq | ].
  exact (search_requests integerToString sampleUser "Hanoi" nothingFound staleState Hq).
Defined.

Lemma geocoder_failure_keeps_place_witness :
  Str.trim "Hanoi" <> "" /\
  answer nothingFound (GeocodeRequest (Str.trim "Hanoi")) = inr (okResponse (VArr [])) /\
  errorMessage (run staleState
                    (Eff.trace (handleSearch integerToString (Some sampleUser)
                                             "Hanoi" nothingFound)))
    = "No matching location found in Vietnam." /\
  selectedPlace (run staleState
                     (Eff.trace (handleSearch integerToString (Some sampleUser)
                                              "Hanoi" nothingFound)))
    = selectedPlace staleState.
Proof.
  assert (Hq : Str.trim "Hanoi" <> "") by discriminate.
  split; [ exact Hq | split; [ reflexivity | ] ].
  assert (Hcase :
            (ok (okResponse (VArr [])) = false /\
             "No matching location found in Vietnam."
             = "Unable to locate the place, please try again.")
            \/ (ok (okResponse (VArr [])) = true /\
                (exists data, json (okResponse (VArr [])) = inr data /\
                              forall first rest, data <> VArr (first :: rest)) /\
                "No matching location found in Vietnam."
                = "No matching location found in Vietnam.")).
  { right. split; [ reflexivity | split; [ | reflexivity ] ].
    exists (VArr []). split; [ reflexivity | discriminate ]. }
  destruct (geocoder_failure_keeps_place integerToString sampleUser "Hanoi"
              nothingFound staleState (okResponse (VArr []))
              "No matching location found in Vietnam." Hq eq_refl Hcase)
    as (_ & Hmsg & Hplace & _).
  split; assumption.
Defined.

Lemma completed_search_state_witness :
  Str.trim "Hanoi" <> "" /\
  Eff.outcome (searchBody integerToString oneFeature (Str.trim "Hanoi")) = inr tt /\
  isLoading (run staleState
                 (Eff.trace (handleSearch integerToString (Some sampleUser)
                                          "Hanoi" oneFeature))) = false /\
  exists first result,
    selectedPlace (run staleState
                       (Eff.trace (handleSearch integerToString (Some sampleUser)
                                                "Hanoi" oneFeature)))
      = Some (placeOf integerToString first) /\
    pois (run staleState
              (Eff.trace (handleSearch integerToString (Some sampleUser)
                                       "Hanoi" oneFeature))) = result.
Proof.
  assert (Hq : Str.trim "Hanoi" <> "") by discriminate.
  split; [ exact Hq | split; [ reflexivity | ] ].
  destruct (completed_search_state integerToString sampleUser "Hanoi" oneFeature
              staleState Hq eq_refl)
    as (geocodeResponse & first & rest & weatherResponse & poiResponse & poiData
        & result & _ & _ & _ & _ & _ & _ & _ & _ & Hplace & _ & Hpois & _ & _ & Hidle).
  split; [ exact Hidle | ].
  exists first, result. split; assumption.
Defined.


Lemma validated_translate_outcome_witness :
  Str.trim " Hello " <> "" /\
  TRANSLATION_ENDPOINT (VStr "https://api.example.com/") <> "" /\
  requests (Eff.trace (handleTranslate integerToString (VStr "https://api.example.com/")
                                       (Some sampleUser) " Hello " allUp))
    = [ TranslateRequest "https://api.example.com/translate" "Hello" ] /\
  isTranslating
    (run initialState
         (Eff.trace (handleTranslate integerToString (VStr "https://api.example.com/")
                                     (Some sampleUser) " Hello " allUp))) = false.
Proof.
  assert (Ht : Str.trim " Hello " <> "") by discriminate.
  assert (He : TRANSLATION_ENDPOINT (VStr "https://api.example.com/") <> "")
    by discriminate.
  split; [ exact Ht | split; [ exact He | ] ].
  destruct (validated_translate_outcome integerToString
              (VStr "https://api.example.com/") sampleUser " Hello " allUp
              initialState Ht He) as (_ & Hreq & Hidle & _).
  split; [ exact Hreq | exact Hidle ].
Defined.

Lemma translate_publishes_trimmed_text_witness :
  Str.trim " Xin chao " <> "" /\
  translationResult
    (run initialState
         (Eff.trace (handleTranslate integerToString (VStr "https://api.example.com")
                       (Some sampleUser) "Hello"
                       (networkOf (inl failedToFetch) (inl failedToFetch)
                                  (inl failedToFetch)
                                  (inr (okResponse
                                          (VObj [ ("translated_text",
                                                   VStr " Xin chao ") ])))))))
    = "Xin chao".
Proof.
  assert (Ht : Str.trim "Hello" <> "") by discriminate.
  assert (He : TRANSLATION_ENDPOINT (VStr "https://api.example.com") <> "")
    by discriminate.
  assert (Hs : Str.trim " Xin chao " <> "") by discriminate.
  split; [ exact Hs | ].
  destruct (translate_publishes_trimmed_text integerToString
              (VStr "https://api.example.com") sampleUser "Hello"
              (networkOf (inl failedToFetch) (inl failedToFetch) (inl failedToFetch)
                         (inr (okResponse
                                 (VObj [ ("translated_text", VStr " Xin chao ") ]))))
              initialState
              (okResponse (VObj [ ("translated_text", VStr " Xin chao ") ]))
              (VObj [ ("translated_text", VStr " Xin chao ") ]) " Xin chao "
              Ht He eq_refl eq_refl eq_refl eq_refl Hs) as (Hresult & _).
  exact Hresult.
Defined.

(** A failure answer with both fields: the [detail] is the message. *)
Lemma translate_failure_status_message_witness :
  ok (statusResponse 503
        (Json (VObj [ ("error", VStr "unavailable");
                      ("detail", VStr "Model is loading") ]))) = false /\
  translationError
    (run initialState
         (Eff.trace (handleTranslate integerToString (VStr "https://api.example.com")
                                     (Some sampleUser) "Hello" translationRefused)))
    = "Model is loading".
Proof.
  split; [ reflexivity | ].
  assert (Ht : Str.trim "Hello" <> "") by discriminate.
  assert (He : TRANSLATION_ENDPOINT (VStr "https://api.example.com") <> "")
    by discriminate.
  destruct (translate_failure_status_message integerToString
              (VStr "https://api.example.com") sampleUser "Hello" translationRefused
              initialState
              (statusResponse 503
                 (Json (VObj [ ("error", VStr "unavailable");
                               ("detail", VStr "Model is loading") ])))
              (Json (VObj [ ("error", VStr "unavailable");
                            ("detail", VStr "Model is loading") ]))
              Ht He eq_refl eq_refl eq_refl) as (_ & _ & _ & Hmsg).
  exact Hmsg.
Defined.


(** Three POIs, two of them at 50 metres. *)
Lemma sort_keeps_ties_in_order_witness :
  Forall (fun p => isNum (Poi.distance p) = true)
         [ poiAt 1 50; poiAt 2 20; poiAt 3 50 ] /\
  filter (hasDistance 50) (sort byDistance [ poiAt 1 50; poiAt 2 20; poiAt 3 50 ])
    = filter (hasDistance 50) [ poiAt 1 50; poiAt 2 20; poiAt 3 50 ].
Proof.
  assert (Hnum : Forall (fun p => isNum (Poi.distance p) = true)
                        [ poiAt 1 50; poiAt 2 20; poiAt 3 50 ])
    by (repeat constructor).
  split; [ exact Hnum | ].
  exact (sort_keeps_ties_in_order 50 _ Hnum).
Defined.

Lemma formatted_without_center_witness :
  isNum NaN && isNum (Num 105) = false /\
  exists result made,
    formatted integerToString NaN (Num 105) [ cafe; museum ] = inr result /\
    kept integerToString NaN (Num 105) [ cafe; museum ] = inr made /\
    result = firstn 5 made.
Proof.
  split; [ reflexivity | ].
  eexists.
  destruct (formatted_without_center integerToString NaN (Num 105) [ cafe; museum ]
              _ eq_refl eq_refl) as (made & Hkept & Hresult & _).
  exists made. split; [ reflexivity | split; [ exact Hkept | exact Hresult ] ].
Defined.


Lemma published_poi_is_made_from_a_feature_witness :
  exists result,
    formatted integerToString (Num 21) (Num 105) [ relation; museum ] = inr result /\
    Forall (fun p => exists e, In e [ relation; museum ] /\
                     madeFrom integerToString (Num 21) (Num 105) e p) result.
Proof.
  eexists. split; [ reflexivity | ].
  exact (published_poi_is_made_from_a_feature integerToString (Num 21) (Num 105)
           [ relation; museum ] _ eq_refl).
Defined.

(** The feature without coordinates, between two others. *)
Lemma unlocated_feature_is_dropped_witness :
  wellFormedFeature relation = true /\
  unresolved relation "lat" || unresolved relation "lon" = true /\
  formatElement integerToString (Num 21) (Num 105) relation = inr None /\
  formatted integerToString (Num 21) (Num 105) ([cafe] ++ relation :: [museum])
    = formatted integerToString (Num 21) (Num 105) ([cafe] ++ [museum]).
Proof.
  split; [ reflexivity | split; [ reflexivity | ] ].
  destruct (unlocated_feature_is_dropped integerToString
              (Num 21) (Num 105) relation [cafe] [museum] eq_refl)
    as (Hnone & Hsame).
  split; [ now apply Hnone | now apply Hsame ].
Defined.



Lemma search_form_submission_witness :
  submitLocation integerToString None "Hanoi" allUp = ([], inr tt) /\
  (requests (Eff.trace (submitLocation integerToString (Some sampleUser)
                                       " Hanoi" nothingFound)) <> [] /\
   hd_error (requests (Eff.trace (submitLocation integerToString (Some sampleUser)
                                                 " Hanoi" nothingFound)))
   = Some (GeocodeRequest (Str.trim " Hanoi"))).
Proof.
  split.
  - destruct (search_form_submission integerToString None "Hanoi" allUp)
      as (Hout & _).
    exact (Hout eq_refl).
  - assert (Hsent : requests (Eff.trace (submitLocation integerToString
                                            (Some sampleUser) " Hanoi" nothingFound))
                    <> []) by discriminate.
    split; [ exact Hsent | ].
    destruct (search_form_submission integerToString (Some sampleUser)
                " Hanoi" nothingFound) as (_ & _ & Hreq).
    destruct (Hreq Hsent) as (_ & _ & Hfirst). exact Hfirst.
Defined.

Lemma translation_shown_is_fresh_witness :
  showsTranslation
    (run staleState
         (Eff.trace (submitTranslation integerToString (VStr "https://api.example.com")
                                       (Some sampleUser) "Hello" allUp))) = true /\
  translationResult
    (run staleState
         (Eff.trace (submitTranslation integerToString (VStr "https://api.example.com")
                                       (Some sampleUser) "Hello" allUp))) <> "".
Proof.
  assert (Hshown :
            showsTranslation
              (run staleState
                   (Eff.trace (submitTranslation integerToString
                                 (VStr "https://api.example.com")
                                 (Some sampleUser) "Hello" allUp))) = true)
    by reflexivity.
  split; [ exact Hshown | ].
  destruct (translation_shown_is_fresh integerToString (VStr "https://api.example.com")
              (Some sampleUser) "Hello" allUp staleState Hshown) as (_ & _ & Hfresh).
  exact Hfresh.
Defined.

(** A user signs in and opens the dialog. *)
Lemma translator_open_only_with_user_witness :
  isTranslatorOpen
    (stateAfter integerToString [ AuthStateChanged (Some sampleUser); ClickTranslate ])
    = true /\
  currentUser
    (stateAfter integerToString [ AuthStateChanged (Some sampleUser); ClickTranslate ])
    <> None.
Proof.
  assert (Hopen :
            isTranslatorOpen
              (stateAfter integerToString
                          [ AuthStateChanged (Some sampleUser); ClickTranslate ]) = true)
    by reflexivity.
  split; [ exact Hopen | ].
  exact (translator_open_only_with_user integerToString _ Hopen).
Defined.

(** Without a user the button opens nothing. *)
Example translate_button_without_user :
  isTranslatorOpen (stateAfter integerToString [ AuthStateChanged None; ClickTranslate ])
  = false.
Proof. reflexivity. Qed.

(** The user signs out while the dialog shows a translation. *)
Lemma sign_out_closes_the_dialog_witness :
  currentUser (translated integerToString) <> None /\
  translationResult (translated integerToString) = "Xin chao" /\
  isTranslatorOpen
    (step integerToString (translated integerToString) (AuthStateChanged None))
    = false /\
  translationResult
    (step integerToString (translated integerToString) (AuthStateChanged None)) = "".
Proof.
  assert (Hu : currentUser (translated integerToString) <> None) by discriminate.
  split; [ exact Hu | split; [ reflexivity | ] ].
  destruct (sign_out_closes_the_dialog integerToString (translated integerToString) Hu)
    as (_ & Hclosed & Hcleared & _).
  split; [ exact Hclosed | ].
  destruct (Hcleared eq_refl) as (Hresult & _). exact Hresult.
Defined.

Lemma closing_the_dialog_empties_it_witness :
  isTranslatorOpen (translated integerToString) = true /\
  translationResult
    (step integerToString (translated integerToString) CloseTranslator) = "".
Proof.
  assert (Ho : isTranslatorOpen (translated integerToString) = true) by reflexivity.
  split; [ exact Ho | ].
  destruct (closing_the_dialog_empties_it integerToString
              (translated integerToString) Ho) as (_ & Hresult & _).
  exact Hresult.
Defined.

Lemma endpoint_ignores_one_trailing_slash_witness :
  Str.endsWith "https://api.example.com" "/" = false /\
  TRANSLATION_ENDPOINT (VStr ("https://api.example.com" ++ "/"))
    = TRANSLATION_ENDPOINT (VStr "https://api.example.com").
Proof.
  split; [ reflexivity | ].
  destruct (endpoint_ignores_one_trailing_slash "https://api.example.com" eq_refl)
    as (Hsame & _).
  exact Hsame.
Defined.

(** A registration with a confirmation that differs. *)
Lemma authPanel_rejects_locally_witness :
  (AuthPanel.mode AuthPanel.mismatch = AuthPanel.register /\
   AuthPanel.password AuthPanel.mismatch
   <> AuthPanel.confirmPassword AuthPanel.mismatch) /\
  AuthPanel.calls (AuthPanel.handleSubmit AuthPanel.mismatch AuthPanel.accept) = [] /\
  AuthPanel.password
    (AuthPanel.run AuthPanel.mismatch
                   (AuthPanel.handleSubmit AuthPanel.mismatch AuthPanel.accept))
  = "secret1".
Proof.
  assert (Hdiff : AuthPanel.mode AuthPanel.mismatch = AuthPanel.register /\
                  AuthPanel.password AuthPanel.mismatch
                  <> AuthPanel.confirmPassword AuthPanel.mismatch)
    by (split; [ reflexivity | discriminate ]).
  split; [ exact Hdiff | ].
  destruct (authPanel_rejects_locally AuthPanel.accept AuthPanel.mismatch
              (or_intror (or_intror Hdiff)))
    as (Hcalls & _ & _ & Hpassword & _).
  split; [ exact Hcalls | exact Hpassword ].
Defined.

(** A sign-in the provider refuses. *)
Lemma authPanel_submits_witness :
  Str.trim (AuthPanel.email AuthPanel.attempt) <> "" /\
  Str.trim (AuthPanel.password AuthPanel.attempt) <> "" /\
  AuthPanel.calls (AuthPanel.handleSubmit AuthPanel.attempt AuthPanel.refuse)
    = [ AuthPanel.signInWithEmailAndPassword "an@example.com" "secret1" ] /\
  AuthPanel.isSubmitting
    (AuthPanel.run AuthPanel.attempt
                   (AuthPanel.handleSubmit AuthPanel.attempt AuthPanel.refuse))
  = false.
Proof.
  assert (He : Str.trim (AuthPanel.email AuthPanel.attempt) <> "") by discriminate.
  assert (Hp : Str.trim (AuthPanel.password AuthPanel.attempt) <> "") by discriminate.
  split; [ exact He | split; [ exact Hp | ] ].
  destruct (authPanel_submits AuthPanel.refuse AuthPanel.attempt He Hp
              ltac:(discriminate)) as (Hcalls & Hidle & _).
  split; [ exact Hcalls | exact Hidle ].
Defined.
